(** * dmenuwrap: a shallow embedding of [dmenuwrap.py]

    The module wraps the external [dmenu] selector: [dmenu] spawns the
    selector, feeds it the options and matches its answer against them;
    [DMenu] is the overridable driver; [HandlerListDMenu] and [HandlerDMenu]
    build the option list from handler functions.

    Conventions of the embedding:
    - a Python [str] is the list of its code points ([pystr]); [bytes] are
      [list byte];
    - a raised exception is the [Err] case of [result];
    - the child process is a parameter ([selector]): what it answers on its
      standard output given what it reads on its standard input;
    - the outside world a handler acts upon is an abstract type [W]. *)

From Stdlib Require Import List NArith ZArith Bool Lia Ascii String.
From Stdlib.Strings Require Import Byte.
From Stdlib Require Import DecimalString Permutation Sorted.
Import ListNotations.

Set Implicit Arguments.

(* ------------------------------------------------------------------ *)
(** ** Exceptions *)

Inductive exn : Type :=
| OSError             (* the selector executable cannot be started *)
| UnicodeEncodeError  (* [str.encode('utf-8')] on unencodable text *)
| UnicodeDecodeError  (* [bytes.decode('utf-8')] on malformed output *)
| TypeError           (* ['<'] between two function objects *)
| KeyError            (* [self.option_handlers[option]] on a missing key *)
| Raised (tag : nat). (* anything a handler body raises on its own *)

Inductive result (A : Type) : Type :=
| Ok (a : A)
| Err (e : exn).
Arguments Ok {A} a.
Arguments Err {A} e.

Definition bind {A B} (m : result A) (k : A -> result B) : result B :=
  match m with
  | Ok a => k a
  | Err e => Err e
  end.

Declare Scope py_scope.
Delimit Scope py_scope with py.
Notation "x <- m ;; k" := (bind m (fun x => k))
  (at level 61, m at next level, right associativity) : py_scope.
Open Scope py_scope.

Definition of_option {A} (e : exn) (o : option A) : result A :=
  match o with
  | Some a => Ok a
  | None => Err e
  end.

(* ------------------------------------------------------------------ *)
(** ** Text *)

Module Text.

Local Open Scope N_scope.
Local Open Scope list_scope.

(** A [str] is a sequence of Unicode code points. *)
Definition pystr : Type := list N.

(** An ASCII literal as a [str]. *)
Definition py (s : string) : pystr :=
  List.map N_of_ascii (list_ascii_of_string s).

Definition str_eqb (a b : pystr) : bool :=
  if list_eq_dec N.eq_dec a b then true else false.

(** [str.__lt__] and friends: lexicographic on code points, a proper prefix
    comes first. *)
Fixpoint str_cmp (a b : pystr) : comparison :=
  match a, b with
  | [], [] => Eq
  | [], _ :: _ => Lt
  | _ :: _, [] => Gt
  | x :: a', y :: b' =>
      match N.compare x y with
      | Eq => str_cmp a' b'
      | c => c
      end
  end.

Definition str_ltb (a b : pystr) : bool :=
  match str_cmp a b with Lt => true | _ => false end.

Definition str_le (a b : pystr) : Prop := str_cmp a b <> Gt.

(** [str.isspace] on one code point (the Unicode White_Space characters and
    the four information separators), which is what [rstrip()] removes. *)
Definition isspace (c : N) : bool :=
  ((9 <=? c) && (c <=? 13)) || ((28 <=? c) && (c <=? 32))
  || (c =? 133) || (c =? 160) || (c =? 5760)
  || ((8192 <=? c) && (c <=? 8202))
  || (c =? 8232) || (c =? 8233) || (c =? 8239) || (c =? 8287)
  || (c =? 12288).

(** [s.rstrip()]: drop the longest suffix of white space. *)
Fixpoint rstrip (s : pystr) : pystr :=
  match s with
  | [] => []
  | c :: r =>
      match rstrip r with
      | [] => if isspace c then [] else [c]
      | r' => c :: r'
      end
  end.

(** [sep.join(parts)]. *)
Fixpoint join (sep : pystr) (parts : list pystr) : pystr :=
  match parts with
  | [] => []
  | [p] => p
  | p :: rest => p ++ sep ++ join sep rest
  end.

(** [s.startswith(prefix)]. *)
Fixpoint startswith (s prefix : pystr) : bool :=
  match prefix, s with
  | [], _ => true
  | _ :: _, [] => false
  | p :: prefix', c :: s' => (c =? p) && startswith s' prefix'
  end.

(** *** UTF-8 *)

Definition byte_of (n : N) : byte :=
  match Byte.of_N (n mod 256) with
  | Some b => b
  | None => x00
  end.

Definition cont_byte (n : N) : byte := byte_of (128 + n mod 64).

Definition encode_cp (c : N) : option (list byte) :=
  if c <? 128 then Some [byte_of c]
  else if c <? 2048 then Some [byte_of (192 + c / 64); cont_byte c]
  else if c <? 65536 then
    if (55296 <=? c) && (c <=? 57343) then None (* surrogates *)
    else Some [byte_of (224 + c / 4096); cont_byte (c / 64); cont_byte c]
  else if c <? 1114112 then
    Some [byte_of (240 + c / 262144); cont_byte (c / 4096);
          cont_byte (c / 64); cont_byte c]
  else None.

(** [s.encode('utf-8')]. *)
Fixpoint encode (s : pystr) : option (list byte) :=
  match s with
  | [] => Some []
  | c :: r =>
      match encode_cp c, encode r with
      | Some bs, Some rest => Some (bs ++ rest)
      | _, _ => None
      end
  end.

(** The six payload bits of a continuation byte [10xxxxxx]. *)
Definition cont (b : byte) : option N :=
  let n := Byte.to_N b in
  if (128 <=? n) && (n <? 192) then Some (n - 128) else None.

Definition cons_cp (ok : bool) (c : N) (rest : option pystr) : option pystr :=
  if ok then option_map (cons c) rest else None.

(** [b.decode('utf-8')], strict: overlong forms, surrogates, code points
    above U+10FFFF and truncated sequences are rejected. *)
Fixpoint decode (bs : list byte) : option pystr :=
  match bs with
  | [] => Some []
  | b0 :: r0 =>
      let n0 := Byte.to_N b0 in
      if n0 <? 128 then option_map (cons n0) (decode r0)
      else if n0 <? 192 then None
      else if n0 <? 224 then
        match r0 with
        | b1 :: r1 =>
            match cont b1 with
            | Some c1 =>
                let c := (n0 - 192) * 64 + c1 in
                cons_cp (128 <=? c) c (decode r1)
            | None => None
            end
        | _ => None
        end
      else if n0 <? 240 then
        match r0 with
        | b1 :: b2 :: r2 =>
            match cont b1, cont b2 with
            | Some c1, Some c2 =>
                let c := (n0 - 224) * 4096 + c1 * 64 + c2 in
                cons_cp ((2048 <=? c)
                         && negb ((55296 <=? c) && (c <=? 57343)))
                        c (decode r2)
            | _, _ => None
            end
        | _ => None
        end
      else if n0 <? 248 then
        match r0 with
        | b1 :: b2 :: b3 :: r3 =>
            match cont b1, cont b2, cont b3 with
            | Some c1, Some c2, Some c3 =>
                let c := (n0 - 240) * 262144 + c1 * 4096 + c2 * 64 + c3 in
                cons_cp ((65536 <=? c) && (c <? 1114112)) c (decode r3)
            | _, _, _ => None
            end
        | _ => None
        end
      else None
  end.

End Text.
Import Text.


(* ------------------------------------------------------------------ *)
(** ** Values offered as options *)

(** The values a caller may put in [options]: text, the built-in scalars,
    and instances of a user class that defines [__str__] (identified by
    [id], compared by identity as [object.__eq__] does). *)
Inductive pyval : Type :=
| PyStr (s : pystr)
| PyInt (z : Z)
| PyBool (b : bool)
| PyNone
| PyObj (id : nat) (repr : pystr).


(** [str(v)]. *)
Definition str (v : pyval) : pystr :=
  match v with
  | PyStr s => s
  | PyInt z => py (NilZero.string_of_int (Z.to_int z))
  | PyBool true => py "True"
  | PyBool false => py "False"
  | PyNone => py "None"
  | PyObj _ r => r
  end.

(** [bool(v)], as tested by [if option:]. *)
Definition truthy (v : pyval) : bool :=
  match v with
  | PyStr s => match s with [] => false | _ => true end
  | PyInt z => negb (z =? 0)%Z
  | PyBool b => b
  | PyNone => false
  | PyObj _ _ => true
  end.

(** [s == v] for a [str] [s]: only another [str] with the same code points
    is equal to it. *)
Definition str_eq_val (s : pystr) (v : pyval) : bool :=
  match v with
  | PyStr t => str_eqb s t
  | _ => false
  end.

(** [s in options] for a [str] [s]. *)
Definition contains (s : pystr) (options : list pyval) : bool :=
  existsb (str_eq_val s) options.

(* ------------------------------------------------------------------ *)
(** ** [dmenu] *)

Definition DEFAULT_DMENU_PATH : pystr := py "/usr/bin/dmenu".

Definition NL : pystr := [10%N].

(** The selector executable: given its command line, either it cannot be
    started, or it maps what is written to its standard input to what it
    writes on its standard output. *)
Definition selector : Type := list pystr -> option (list byte -> list byte).

Definition dmenu (sel : selector) (options : list pyval)
    (args : list pystr) (path : pystr) : result pyval :=
  communicate <- of_option OSError (sel ([path] ++ args)) ;;
  let option_lines := join NL (map str options) in
  input <- of_option UnicodeEncodeError (encode option_lines) ;;
  text <- of_option UnicodeDecodeError (decode (communicate input)) ;;
  let option := rstrip text in
  Ok (if contains option options then PyStr option else PyNone).

(* ------------------------------------------------------------------ *)
(** ** The driver [DMenu] *)

(** A driver class: [S] is the type of [self], [W] the world its handling
    step acts upon. Subclasses override the two methods. *)
Class DMenu (S W : Type) : Type := {
  create_options : S -> list pyval;
  handle_option : S -> pyval -> list pyval -> W -> result W
}.

(** The base class: no options, handling does nothing. *)
Definition DMenu_base (W : Type) : DMenu unit W := {|
  create_options := fun _ => [];
  handle_option := fun _ _ _ w => Ok w
|}.

Definition run {S W : Type} {D : DMenu S W} (self : S) (sel : selector)
    (args : list pystr) (path : pystr) (w : W) : result W :=
  let options := create_options self in
  option <- dmenu sel options args path ;;
  if truthy option then handle_option self option options w else Ok w.

(* ------------------------------------------------------------------ *)
(** ** Function objects and [OrderedDict] *)

(** A function object: its identity, its [__name__], the number of
    parameters in its signature, and what calling it without arguments does
    to the world. *)
Record pyfunction (W : Type) : Type := {
  fn_id : nat;
  fn_name : pystr;
  fn_parameters : nat;
  fn_call : W -> result W
}.

Module OrderedDict.
Section OrderedDict.
Variable V : Type.

(** Keys are text; entries are kept in insertion order. *)
Definition t : Type := list (pystr * V).

Fixpoint get (k : pystr) (d : t) : option V :=
  match d with
  | [] => None
  | (k', v) :: d' => if str_eqb k k' then Some v else get k d'
  end.

(** [d[k] = v]: an existing key keeps its position and takes the new value,
    a new key goes last. *)
Fixpoint set (k : pystr) (v : V) (d : t) : t :=
  match d with
  | [] => [(k, v)]
  | (k', v') :: d' =>
      if str_eqb k k' then (k', v) :: d' else (k', v') :: set k v d'
  end.

(** [OrderedDict(pairs)]. *)
Definition of_list (pairs : list (pystr * V)) : t :=
  fold_left (fun d kv => set (fst kv) (snd kv) d) pairs [].

Definition keys (d : t) : list pystr := map fst d.

End OrderedDict.
End OrderedDict.

(* ------------------------------------------------------------------ *)
(** ** Sorting *)

Section Sorting.
Variable A : Type.

(** [sorted(l)] consults only ['<'], which may raise. CPython's list sort
    is stable; it is rendered as a stable insertion sort over the same
    ['<']: the head goes in front of the first element of the sorted tail
    that is not below it. *)
Variable lt : A -> A -> result bool.

Fixpoint insert (x : A) (l : list A) : result (list A) :=
  match l with
  | [] => Ok [x]
  | y :: l' =>
      b <- lt y x ;;
      if b then (r <- insert x l' ;; Ok (y :: r)) else Ok (x :: y :: l')
  end.

Fixpoint sorted (l : list A) : result (list A) :=
  match l with
  | [] => Ok []
  | x :: l' => s <- sorted l' ;; insert x s
  end.

End Sorting.

Section SortByName.
Variable A : Type.

(** [l.sort(key=lambda pair: pair[0])] on pairs whose first component is
    text: comparing two [str] never raises. *)
Fixpoint insert_by_name (x : pystr * A) (l : list (pystr * A))
    : list (pystr * A) :=
  match l with
  | [] => [x]
  | y :: l' =>
      if str_ltb (fst y) (fst x) then y :: insert_by_name x l'
      else x :: y :: l'
  end.

Fixpoint sort_by_name (l : list (pystr * A)) : list (pystr * A) :=
  match l with
  | [] => []
  | x :: l' => insert_by_name x (sort_by_name l')
  end.

End SortByName.

(* ------------------------------------------------------------------ *)
(** ** [HandlerListDMenu] *)

Section Handlers.
Variable W : Type.

(** [a < b] on [(name, fn)] tuples: the names decide when they differ;
    on a tie the functions are compared, equal when they are the same
    object, and unordered (a [TypeError]) otherwise. *)
Definition tuple_lt (a b : pystr * pyfunction W) : result bool :=
  if str_eqb (fst a) (fst b) then
    if Nat.eqb (fn_id (snd a)) (fn_id (snd b)) then Ok false
    else Err TypeError
  else Ok (str_ltb (fst a) (fst b)).

Record HandlerListDMenu : Type := {
  option_handlers : OrderedDict.t (pyfunction W)
}.

(** [HandlerListDMenu.__init__(self, option_handlers, sort)]. *)
Definition HandlerListDMenu_init (handlers : list (pyfunction W))
    (sort : bool) : result HandlerListDMenu :=
  let handler_list :=
    map (fun fn => (fn_name fn, fn))
        (filter (fun fn => Nat.eqb (fn_parameters fn) 0) handlers) in
  handler_list <- (if sort then sorted tuple_lt handler_list
                   else Ok handler_list) ;;
  Ok {| option_handlers := OrderedDict.of_list handler_list |}.

(** [self.option_handlers[option]]: a value that is not text equals no
    key. *)
Definition getitem (self : HandlerListDMenu) (option : pyval)
    : result (pyfunction W) :=
  match option with
  | PyStr s => of_option KeyError (OrderedDict.get s (option_handlers self))
  | _ => Err KeyError
  end.

#[export] Instance HandlerListDMenu_DMenu : DMenu HandlerListDMenu W := {|
  create_options := fun self =>
    map PyStr (OrderedDict.keys (option_handlers self));
  handle_option := fun self option options w =>
    if truthy option then
      handler <- getitem self option ;;
      fn_call handler w
    else Ok w
|}.

(* ------------------------------------------------------------------ *)
(** ** [HandlerDMenu] *)

(** What [getattr] gives for one name of the target object. *)
Inductive attr : Type :=
| AttrFunction (fn : pyfunction W)
| AttrOther.

(** The target object, as the [(name, value)] pairs behind [dir] and
    [getattr]. *)
Definition pyobject : Type := list (pystr * attr).

Definition isfunction (a : attr) : bool :=
  match a with
  | AttrFunction _ => true
  | AttrOther => false
  end.

(** [inspect.getmembers(object, predicate)]: the members satisfying the
    predicate, sorted by name. *)
Definition getmembers (object : pyobject) (predicate : attr -> bool)
    : list (pystr * attr) :=
  sort_by_name (filter (fun m => predicate (snd m)) object).

(** [HandlerDMenu.__init__(self, option_handlers)]; [HandlerDMenu] inherits
    everything else from [HandlerListDMenu]. *)
Definition HandlerDMenu_init (object : pyobject) : result HandlerListDMenu :=
  let fn_list :=
    flat_map (fun m => match snd m with
                       | AttrFunction fn =>
                           if negb (startswith (fst m) (py "__")) then [fn]
                           else []
                       | AttrOther => []
                       end)
             (getmembers object isfunction) in
  HandlerListDMenu_init fn_list false.

End Handlers.

(* ------------------------------------------------------------------ *)
(** ** Auxiliary definitions used in the statements *)

(** The child's entire decoded output, before [rstrip]: the first steps of
    [dmenu] on their own. *)
Definition decoded_output (sel : selector) (options : list pyval)
    (args : list pystr) (path : pystr) : result pystr :=
  communicate <- of_option OSError (sel ([path] ++ args)) ;;
  input <- of_option UnicodeEncodeError
             (encode (join NL (map str options))) ;;
  of_option UnicodeDecodeError (decode (communicate input)).

Definition whitespace (s : pystr) : Prop :=
  Forall (fun c => isspace c = true) s.

Definition str_lt (a b : pystr) : Prop := str_cmp a b = Lt.

Definition name_lt {A : Type} (x y : pystr * A) : Prop :=
  str_lt (fst x) (fst y).

(** The two halves of the comprehension in [HandlerListDMenu.__init__]. *)
Definition tuple {W : Type} (fn : pyfunction W) : pystr * pyfunction W :=
  (fn_name fn, fn).

Definition nullary {W : Type} (fn : pyfunction W) : bool :=
  Nat.eqb (fn_parameters fn) 0.

(** *** Stub selectors *)

(** A selector that ignores its input and writes [text]. *)
Definition say (text : pystr) : selector :=
  fun _ => Some (fun _ => match encode text with
                          | Some bs => bs
                          | None => []
                          end).

Fixpoint split_lines (bs : list byte) : list (list byte) :=
  match bs with
  | [] => [[]]
  | b :: r =>
      match split_lines r with
      | l :: ls => if Byte.eqb b x0a then [] :: l :: ls else (b :: l) :: ls
      | [] => [[b]]
      end
  end.

(** A selector whose user picks the [n]-th displayed line: it writes that
    line back, followed by a newline, as [dmenu] does. *)
Definition pick (n : nat) : selector :=
  fun _ => Some (fun input => nth n (split_lines input) [] ++ [x0a]).

(** A selector that writes back everything it reads. *)
Definition cat : selector := fun _ => Some (fun input => input).



(** The code points [str.encode('utf-8')] accepts: all but the surrogates
    and what lies above U+10FFFF. *)
Definition encodable (c : N) : bool :=
  ((c <? 55296) || (57343 <? c))%N && (c <? 1114112)%N.

(** Two [(name, fn)] tuples that ['<'] cannot order: same name, different
    function objects. *)
Definition unordered {W : Type} (a b : pystr * pyfunction W) : Prop :=
  fst a = fst b /\ fn_id (snd a) <> fn_id (snd b).

Definition name_le {A : Type} (x y : pystr * A) : Prop :=
  str_cmp (fst x) (fst y) <> Gt.

(** The comprehension of [HandlerDMenu.__init__] on one member: the function
    is kept unless the attribute name begins with two underscores. *)
Definition kept {W : Type} (m : pystr * attr W) : list (pyfunction W) :=
  match snd m with
  | AttrFunction fn =>
      if negb (startswith (fst m) (py "__")) then [fn] else []
  | AttrOther _ => []
  end.

(** *** A driver that records the calls of its handling step *)

Definition call_log : Type := list (pyval * list pyval).

Definition Recorder : DMenu (list pyval) call_log := {|
  create_options := fun self => self;
  handle_option := fun _ option options log =>
    Ok (log ++ [(option, options)])
|}.

(** *** Sample handlers *)

Definition fn0 (id : nat) (name : string) : pyfunction (list nat) :=
  {| fn_id := id; fn_name := py name; fn_parameters := 0;
     fn_call := fun w => Ok (w ++ [id]) |}.

Definition fn1 (id : nat) (name : string) : pyfunction (list nat) :=
  {| fn_id := id; fn_name := py name; fn_parameters := 1;
     fn_call := fun w => Ok (w ++ [id]) |}.

(* ================================================================== *)
(** * Properties *)

(** ** Text *)

Example encode_decode_sample :
  let s := py "apple " ++ [233; 8364; 128512; 10]%N in
  option_map decode (encode s) = Some (Some s).
Proof. vm_compute. reflexivity. Qed.

Example decode_rejects_overlong : decode [xc0; x80] = None.
Proof. vm_compute. reflexivity. Qed.

Example rstrip_sample :
  rstrip (py " a b " ++ [10; 160; 8232]%N) = py " a b".
Proof. vm_compute. reflexivity. Qed.

Example str_samples :
  map str [PyInt (-5); PyInt 0; PyBool true; PyNone; PyStr (py "x")]
  = [py "-5"; py "0"; py "True"; py "None"; py "x"].
Proof. vm_compute. reflexivity. Qed.

Example join_sample :
  join NL [py "a"; py "b"; py "c"] = py "a" ++ NL ++ py "b" ++ NL ++ py "c".
Proof. vm_compute. reflexivity. Qed.

Lemma str_eqb_eq (a b : pystr) : str_eqb a b = true <-> a = b.
Proof.
  unfold str_eqb. destruct (list_eq_dec N.eq_dec a b); split;
    congruence.
Qed.

Lemma str_eqb_refl (a : pystr) : str_eqb a a = true.
Proof. now apply str_eqb_eq. Qed.

Lemma str_eqb_neq (a b : pystr) : str_eqb a b = false <-> a <> b.
Proof.
  unfold str_eqb. destruct (list_eq_dec N.eq_dec a b); split;
    congruence.
Qed.

Lemma rstrip_whitespace (ws : pystr) : whitespace ws -> rstrip ws = [].
Proof.
  induction 1 as [|c ws Hc _ IH]; simpl; [reflexivity|].
  now rewrite IH, Hc.
Qed.

Lemma rstrip_app_whitespace (s ws : pystr) :
  whitespace ws -> rstrip (s ++ ws) = rstrip s.
Proof.
  intros Hws. induction s as [|c s IH]; simpl.
  - now apply rstrip_whitespace.
  - now rewrite IH.
Qed.

Lemma rstrip_idempotent (s : pystr) : rstrip (rstrip s) = rstrip s.
Proof.
  induction s as [|c s IH]; simpl; [reflexivity|].
  destruct (rstrip s) as [|d r] eqn:E.
  - destruct (isspace c) eqn:Ec; simpl; [reflexivity|now rewrite Ec].
  - simpl in *. now rewrite IH.
Qed.

(** ** [dmenu] *)

Lemma contains_In (s : pystr) (options : list pyval) :
  contains s options = true <-> In (PyStr s) options.
Proof.
  unfold contains. rewrite existsb_exists. split.
  - intros [v [Hin Heq]]. destruct v; simpl in Heq; try discriminate.
    apply str_eqb_eq in Heq. now subst.
  - intros Hin. exists (PyStr s). split; [assumption|].
    simpl. apply str_eqb_refl.
Qed.

Lemma contains_not_In (s : pystr) (options : list pyval) :
  contains s options = false <-> ~ In (PyStr s) options.
Proof.
  rewrite <- contains_In. destruct (contains s options); split;
    congruence.
Qed.

(** [dmenu] is its decoded output, stripped and tested for membership. *)
Lemma dmenu_decoded (sel : selector) (options : list pyval)
    (args : list pystr) (path : pystr) :
  dmenu sel options args path =
  (text <- decoded_output sel options args path ;;
   Ok (if contains (rstrip text) options then PyStr (rstrip text)
       else PyNone)).
Proof.
  unfold dmenu, decoded_output.
  destruct (sel ([path] ++ args)) as [communicate|]; simpl;
    [|reflexivity].
  destruct (encode (join NL (map str options))) as [input|]; simpl;
    [|reflexivity].
  destruct (decode (communicate input)); reflexivity.
Qed.

Lemma dmenu_result (sel : selector) (options : list pyval)
    (args : list pystr) (path : pystr) (r : pyval) :
  dmenu sel options args path = Ok r ->
  r = PyNone \/ (exists s, r = PyStr s /\ In r options).
Proof.
  rewrite dmenu_decoded.
  destruct (decoded_output sel options args path) as [text|];
    simpl; [|discriminate].
  destruct (contains (rstrip text) options) eqn:E; intros [= <-].
  - right. exists (rstrip text). split; [reflexivity|].
    now apply contains_In.
  - now left.
Qed.

(** C1. Whenever the child's decoded output, stripped of trailing white
    space, equals one of the supplied options, [dmenu] returns that stripped
    text; otherwise it returns [None]. *)
Theorem dmenu_returns_stripped_output_or_None (sel : selector)
    (options : list pyval) (args : list pystr) (path : pystr)
    (text : pystr) :
  decoded_output sel options args path = Ok text ->
  (In (PyStr (rstrip text)) options ->
   dmenu sel options args path = Ok (PyStr (rstrip text)))
  /\ (~ In (PyStr (rstrip text)) options ->
      dmenu sel options args path = Ok PyNone).
Proof.
  intros Hout. rewrite dmenu_decoded, Hout. simpl. split; intros H.
  - apply contains_In in H. now rewrite H.
  - apply contains_not_In in H. now rewrite H.
Qed.

Lemma dmenu_returns_stripped_output_or_None_witness :
  dmenu (say (py "beta" ++ py "  " ++ NL))
        [PyStr (py "alpha"); PyStr (py "beta")] [] DEFAULT_DMENU_PATH
  = Ok (PyStr (py "beta"))
  /\ dmenu (say (py "gamma" ++ NL))
           [PyStr (py "alpha"); PyStr (py "beta")] [] DEFAULT_DMENU_PATH
     = Ok PyNone.
Proof.
  split.
  - refine (proj1 (@dmenu_returns_stripped_output_or_None
                     (say (py "beta" ++ py "  " ++ NL))
                     [PyStr (py "alpha"); PyStr (py "beta")] []
                     DEFAULT_DMENU_PATH (py "beta" ++ py "  " ++ NL)
                     _) _).
    + vm_compute. reflexivity.
    + vm_compute. right. left. reflexivity.
  - refine (proj2 (@dmenu_returns_stripped_output_or_None
                     (say (py "gamma" ++ NL))
                     [PyStr (py "alpha"); PyStr (py "beta")] []
                     DEFAULT_DMENU_PATH (py "gamma" ++ NL)
                     _) _).
    + vm_compute. reflexivity.
    + vm_compute. intros [H|[H|[]]]; discriminate H.
Defined.

(** C2 (as stated, refuted). The option ["a "] ends in a space; the user
    picks it and the selector writes that very line back, yet [dmenu]
    returns [None]: [rstrip] has removed the space before the comparison. *)
Lemma round_trip_fails_on_trailing_space :
  let options := [PyStr (py "a ")] in
  In (PyStr (py "a ")) options
  /\ decoded_output (pick 0) options [] DEFAULT_DMENU_PATH
     = Ok (py "a " ++ NL)
  /\ dmenu (pick 0) options [] DEFAULT_DMENU_PATH = Ok PyNone
  /\ dmenu (say (py "a ")) options [] DEFAULT_DMENU_PATH = Ok PyNone.
Proof.
  cbv zeta. split; [now left|]. split; [|split]; vm_compute; reflexivity.
Qed.

(** C2 (amended). If the selector writes back an option that is text and
    has no trailing white space, followed by any white space (the newline),
    then [dmenu] returns exactly that option. *)
Theorem dmenu_round_trip (sel : selector) (options : list pyval)
    (args : list pystr) (path : pystr) (o ws : pystr) :
  In (PyStr o) options ->
  rstrip o = o ->
  whitespace ws ->
  decoded_output sel options args path = Ok (o ++ ws) ->
  dmenu sel options args path = Ok (PyStr o).
Proof.
  intros Hin Ho Hws Hout.
  rewrite dmenu_decoded, Hout. simpl.
  rewrite (rstrip_app_whitespace o Hws), Ho.
  apply contains_In in Hin. now rewrite Hin.
Qed.

Lemma dmenu_round_trip_witness :
  dmenu (pick 1) [PyStr (py "x"); PyStr (py "y z"); PyStr (py "w")] []
        DEFAULT_DMENU_PATH
  = Ok (PyStr (py "y z")).
Proof.
  apply (@dmenu_round_trip (pick 1)
           [PyStr (py "x"); PyStr (py "y z"); PyStr (py "w")] []
           DEFAULT_DMENU_PATH (py "y z") NL).
  - vm_compute. right. left. reflexivity.
  - vm_compute. reflexivity.
  - repeat constructor.
  - vm_compute. reflexivity.
Defined.

(** C5 (as stated, refuted). When the empty text is itself an option, an
    empty output is matched and returned: the result is [''], not [None]. *)
Lemma empty_output_matches_empty_option :
  dmenu (say []) [PyStr []] [] DEFAULT_DMENU_PATH = Ok (PyStr [])
  /\ dmenu (say []) [PyStr []] [] DEFAULT_DMENU_PATH <> Ok PyNone.
Proof. split; vm_compute; [reflexivity|discriminate]. Qed.

(** C5 (amended). For every option list that does not contain the empty
    text, an output that is empty or all white space makes [dmenu] return
    [None]. *)
Theorem dmenu_blank_output_is_None (sel : selector) (options : list pyval)
    (args : list pystr) (path : pystr) (text : pystr) :
  ~ In (PyStr []) options ->
  whitespace text ->
  decoded_output sel options args path = Ok text ->
  dmenu sel options args path = Ok PyNone.
Proof.
  intros Hnin Hws Hout.
  rewrite dmenu_decoded, Hout. simpl.
  rewrite (rstrip_whitespace Hws).
  apply contains_not_In in Hnin. now rewrite Hnin.
Qed.

Lemma dmenu_blank_output_is_None_witness :
  dmenu (say (py " " ++ NL)) [PyStr (py "a"); PyInt 0] []
        DEFAULT_DMENU_PATH
  = Ok PyNone.
Proof.
  apply (@dmenu_blank_output_is_None (say (py " " ++ NL))
           [PyStr (py "a"); PyInt 0] [] DEFAULT_DMENU_PATH (py " " ++ NL)).
  - vm_compute. intros [H|[H|[]]]; discriminate H.
  - repeat constructor.
  - vm_compute. reflexivity.
Defined.




(** ** [DMenu.run] *)

(** C3 (as stated, refuted). The option list holds the empty text; the user
    picks it, [dmenu] returns it (one of the options, not [None]), and
    [run] still skips the handling step: the log of calls stays empty. *)
Lemma run_skips_selected_empty_option :
  let self := [PyStr []] in
  dmenu (pick 0) (create_options (DMenu := Recorder) self) []
        DEFAULT_DMENU_PATH = Ok (PyStr [])
  /\ In (PyStr []) (create_options (DMenu := Recorder) self)
  /\ PyStr [] <> PyNone
  /\ run (D := Recorder) self (pick 0) [] DEFAULT_DMENU_PATH [] = Ok []
  /\ handle_option (DMenu := Recorder) self (PyStr []) self []
     = Ok [(PyStr [], self)].
Proof.
  cbv zeta. repeat split; try (vm_compute; reflexivity).
  - now left.
  - discriminate.
Qed.

(** C3 (amended). [run] hands the selected option and the full option list
    to [handle_option], once, exactly when the result of [dmenu] is neither
    [None] nor the empty text; when it is one of the two, no handling
    occurs and the world is left as it was. *)
Theorem run_handles_iff_selected_nonempty (S W : Type) (D : DMenu S W)
    (self : S) (sel : selector) (args : list pystr) (path : pystr)
    (w : W) (r : pyval) :
  dmenu sel (create_options self) args path = Ok r ->
  (r <> PyNone -> r <> PyStr [] ->
   run self sel args path w = handle_option self r (create_options self) w)
  /\ (r = PyNone \/ r = PyStr [] -> run self sel args path w = Ok w).
Proof.
  intros Hr. unfold run. rewrite Hr. simpl.
  destruct (dmenu_result _ _ _ _ Hr) as [->|[s [-> _]]].
  - split; [intros H; now contradiction H|reflexivity].
  - destruct s as [|c s]; simpl.
    + split; [intros _ H; now contradiction H|reflexivity].
    + split; [reflexivity|intros [H|H]; discriminate H].
Qed.

Lemma run_handles_iff_selected_nonempty_witness :
  let options := [PyStr (py "x"); PyStr (py "y"); PyStr (py "z")] in
  run (D := Recorder) options (pick 1) [] DEFAULT_DMENU_PATH []
  = Ok [(PyStr (py "y"), options)]
  /\ run (D := Recorder) options (say (py "other")) []
       DEFAULT_DMENU_PATH []
     = Ok [].
Proof.
  cbv zeta. split.
  - refine (proj1 (@run_handles_iff_selected_nonempty _ _ Recorder
              [PyStr (py "x"); PyStr (py "y"); PyStr (py "z")] (pick 1) []
              DEFAULT_DMENU_PATH [] (PyStr (py "y")) _) _ _).
    + vm_compute. reflexivity.
    + discriminate.
    + vm_compute. discriminate.
  - refine (proj2 (@run_handles_iff_selected_nonempty _ _ Recorder
              [PyStr (py "x"); PyStr (py "y"); PyStr (py "z")]
              (say (py "other")) [] DEFAULT_DMENU_PATH [] PyNone _) _).
    + vm_compute. reflexivity.
    + now left.
Defined.

(** ** [OrderedDict] *)

Lemma get_In_keys (V : Type) (k : pystr) (d : OrderedDict.t V) :
  In k (OrderedDict.keys d) -> exists v, OrderedDict.get k d = Some v.
Proof.
  induction d as [|[k' v'] d IH]; simpl; [intros []|].
  intros [Hk|Hk].
  - subst k'. rewrite str_eqb_refl. now exists v'.
  - destruct (str_eqb k k'); [now exists v'|now apply IH].
Qed.

Lemma In_map_PyStr (s : pystr) (l : list pystr) :
  In (PyStr s) (map PyStr l) -> In s l.
Proof.
  rewrite in_map_iff. intros [t [[= ->] Ht]]. exact Ht.
Qed.

(** ** [HandlerListDMenu.handle_option] *)

(** C9. Whatever [dmenu] returns on the options of a [HandlerListDMenu],
    other than [None], is a key of [option_handlers]: the lookup in
    [handle_option] finds a handler, and the [KeyError] branch is not taken
    on the path through [run]. *)
Theorem handle_option_lookup_succeeds (W : Type)
    (self : HandlerListDMenu W) (sel : selector) (args : list pystr)
    (path : pystr) (w : W) (option : pyval) :
  dmenu sel (create_options self) args path = Ok option ->
  option <> PyNone ->
  exists handler,
    getitem self option = Ok handler
    /\ handle_option self option (create_options self) w
       = (if truthy option then fn_call handler w else Ok w)
    /\ run self sel args path w
       = (if truthy option then fn_call handler w else Ok w).
Proof.
  intros Hd Hnone.
  destruct (dmenu_result _ _ _ _ Hd) as [->|[s [-> Hin]]];
    [now contradiction Hnone|].
  simpl in Hin. apply In_map_PyStr in Hin.
  destruct (get_In_keys _ _ Hin) as [handler Hget].
  exists handler. unfold run. rewrite Hd. simpl. rewrite Hget. simpl.
  repeat split; destruct s; reflexivity.
Qed.

Lemma handle_option_lookup_succeeds_witness :
  let self := {| option_handlers :=
                   [(py "lock", fn0 1 "lock"); (py "halt", fn0 2 "halt")] |} in
  run self (pick 1) [] DEFAULT_DMENU_PATH [] = Ok [2].
Proof.
  cbv zeta.
  destruct (@handle_option_lookup_succeeds (list nat)
              {| option_handlers :=
                   [(py "lock", fn0 1 "lock"); (py "halt", fn0 2 "halt")] |}
              (pick 1) [] DEFAULT_DMENU_PATH [] (PyStr (py "halt")))
    as [handler [Hget [_ Hrun]]].
  - vm_compute. reflexivity.
  - discriminate.
  - rewrite Hrun. vm_compute in Hget. injection Hget as <-.
    reflexivity.
Defined.

(** ** Order on text *)

Lemma str_cmp_eq (a b : pystr) : str_cmp a b = Eq <-> a = b.
Proof.
  revert b. induction a as [|x a IH]; intros [|y b]; simpl;
    try (split; [discriminate|discriminate]); [tauto|].
  destruct (N.compare_spec x y) as [->|H|H].
  - rewrite IH. split; congruence.
  - split; [discriminate|]. intros [= -> _]. lia.
  - split; [discriminate|]. intros [= -> _]. lia.
Qed.

Lemma str_cmp_antisym (a b : pystr) : str_cmp b a = CompOpp (str_cmp a b).
Proof.
  revert b. induction a as [|x a IH]; intros [|y b]; simpl;
    try reflexivity.
  rewrite (N.compare_antisym x y).
  destruct (N.compare x y); simpl; [apply IH|reflexivity|reflexivity].
Qed.

Lemma str_lt_trans (a b c : pystr) : str_lt a b -> str_lt b c -> str_lt a c.
Proof.
  unfold str_lt. revert b c.
  induction a as [|x a IH]; intros [|y b] [|z c]; simpl;
    try discriminate; try reflexivity.
  destruct (N.compare_spec x y) as [->|Hxy|Hxy]; try discriminate.
  - destruct (N.compare y z); [apply IH|reflexivity|discriminate].
  - intros _. destruct (N.compare_spec y z) as [->|Hyz|Hyz];
      try discriminate; intros _.
    + now apply N.compare_lt_iff in Hxy as ->.
    + assert (H : (x < z)%N) by lia.
      now apply N.compare_lt_iff in H as ->.
Qed.

Lemma str_ltb_false_neq (a b : pystr) :
  str_ltb a b = false -> a <> b -> str_lt b a.
Proof.
  unfold str_ltb, str_lt. intros Hlt Hneq.
  rewrite str_cmp_antisym.
  destruct (str_cmp a b) eqn:E; simpl; try discriminate; [|reflexivity].
  apply str_cmp_eq in E. contradiction.
Qed.

Lemma str_ltb_lt (a b : pystr) : str_ltb a b = true <-> str_lt a b.
Proof.
  unfold str_ltb, str_lt. destruct (str_cmp a b); split;
    congruence.
Qed.

(** ** Sorting by name *)

Section SortFacts.
Variable A : Type.
Implicit Types (x y : pystr * A) (l : list (pystr * A)).

Lemma insert_by_name_perm x l : Permutation (insert_by_name x l) (x :: l).
Proof.
  induction l as [|y l IH]; simpl; [reflexivity|].
  destruct (str_ltb (fst y) (fst x)); [|reflexivity].
  rewrite IH. apply perm_swap.
Qed.

Lemma sort_by_name_perm l : Permutation (sort_by_name l) l.
Proof.
  induction l as [|x l IH]; simpl; [reflexivity|].
  rewrite insert_by_name_perm. now constructor.
Qed.

Lemma insert_by_name_HdRel x y l :
  name_lt y x -> HdRel name_lt y l -> HdRel name_lt y (insert_by_name x l).
Proof.
  intros Hyx Hy. destruct l as [|z l]; simpl; [now constructor|].
  destruct (str_ltb (fst z) (fst x)); constructor;
    [now inversion Hy|assumption].
Qed.

Lemma insert_by_name_sorted x l :
  (forall y, In y l -> fst y <> fst x) ->
  Sorted name_lt l -> Sorted name_lt (insert_by_name x l).
Proof.
  induction l as [|y l IH]; simpl; intros Hfresh Hs.
  - repeat constructor.
  - inversion Hs as [|? ? Hs' Hhd]; subst.
    destruct (str_ltb (fst y) (fst x)) eqn:E.
    + constructor.
      * apply IH; [intros z Hz; apply Hfresh; now right|assumption].
      * apply insert_by_name_HdRel; [now apply str_ltb_lt|assumption].
    + constructor; [assumption|]. constructor.
      apply str_ltb_false_neq; [assumption|]. apply Hfresh. now left.
Qed.

Lemma sort_by_name_sorted l :
  NoDup (map fst l) -> Sorted name_lt (sort_by_name l).
Proof.
  induction l as [|x l IH]; simpl; intros Hnd; [constructor|].
  inversion Hnd as [|? ? Hx Hnd']; subst.
  apply insert_by_name_sorted; [|now apply IH].
  intros y Hy Heq. apply Hx. rewrite <- Heq.
  apply in_map. now apply (Permutation_in _ (sort_by_name_perm l)).
Qed.

Lemma Sorted_map_fst l :
  Sorted name_lt l -> Sorted str_lt (map fst l).
Proof.
  induction 1 as [|x l Hs IH Hhd]; simpl; constructor; [assumption|].
  destruct Hhd; simpl; now constructor.
Qed.

End SortFacts.

(** On tuples with pairwise distinct names, ['<'] never reaches the
    functions: [sorted] succeeds and sorts by name. *)
Lemma insert_tuple_lt (W : Type) (x : pystr * pyfunction W)
    (l : list (pystr * pyfunction W)) :
  (forall y, In y l -> fst y <> fst x) ->
  insert (@tuple_lt W) x l = Ok (insert_by_name x l).
Proof.
  induction l as [|y l IH]; simpl; intros Hfresh; [reflexivity|].
  unfold tuple_lt at 1.
  assert (Hne : str_eqb (fst y) (fst x) = false).
  { apply str_eqb_neq. apply Hfresh. now left. }
  rewrite Hne. simpl.
  destruct (str_ltb (fst y) (fst x)); [|reflexivity].
  rewrite IH; [reflexivity|]. intros z Hz. apply Hfresh. now right.
Qed.

Lemma sorted_tuple_lt (W : Type) (l : list (pystr * pyfunction W)) :
  NoDup (map fst l) -> sorted (@tuple_lt W) l = Ok (sort_by_name l).
Proof.
  induction l as [|x l IH]; simpl; intros Hnd; [reflexivity|].
  inversion Hnd as [|? ? Hx Hnd']; subst.
  rewrite (IH Hnd'). simpl. apply insert_tuple_lt.
  intros y Hy Heq. apply Hx. rewrite <- Heq.
  apply in_map. now apply (Permutation_in _ (sort_by_name_perm l)).
Qed.

(** ** Building the [OrderedDict] *)

Section DictFacts.
Variable V : Type.
Implicit Types (d : OrderedDict.t V) (l : list (pystr * V)).

Lemma set_fresh k v d :
  ~ In k (OrderedDict.keys d) -> OrderedDict.set k v d = d ++ [(k, v)].
Proof.
  induction d as [|[k' v'] d IH]; simpl; intros Hk; [reflexivity|].
  assert (Hne : str_eqb k k' = false).
  { apply str_eqb_neq. intros ->. apply Hk. now left. }
  rewrite Hne, IH; [reflexivity|]. intros H. apply Hk. now right.
Qed.

Lemma fold_set_fresh l d :
  NoDup (map fst (d ++ l)) ->
  fold_left (fun d kv => OrderedDict.set (fst kv) (snd kv) d) l d = d ++ l.
Proof.
  revert d. induction l as [|[k v] l IH]; intros d Hnd; simpl.
  - now rewrite app_nil_r.
  - assert (Hk : ~ In k (OrderedDict.keys d)).
    { unfold OrderedDict.keys. rewrite map_app in Hnd. simpl in Hnd.
      apply NoDup_remove_2 in Hnd. intros H. apply Hnd.
      apply in_or_app. now left. }
    rewrite (@set_fresh k v d Hk), IH; rewrite <- app_assoc;
      [reflexivity|exact Hnd].
Qed.

Lemma of_list_distinct l :
  NoDup (map fst l) -> OrderedDict.of_list l = l.
Proof. intros Hnd. exact (fold_set_fresh l [] Hnd). Qed.

Lemma get_set k k' v d :
  OrderedDict.get k (OrderedDict.set k' v d)
  = if str_eqb k k' then Some v else OrderedDict.get k d.
Proof.
  induction d as [|[k2 v2] d IH]; simpl.
  - destruct (str_eqb k k'); reflexivity.
  - destruct (str_eqb k' k2) eqn:E2; simpl.
    + apply str_eqb_eq in E2. subst k2.
      destruct (str_eqb k k'); reflexivity.
    + rewrite IH. destruct (str_eqb k k2) eqn:E; [|reflexivity].
      apply str_eqb_eq in E. subst k2.
      destruct (str_eqb k k') eqn:E3; [|reflexivity].
      apply str_eqb_eq in E3. subst k'. rewrite str_eqb_refl in E2.
      discriminate.
Qed.

Lemma keys_set k k' v d :
  In k (OrderedDict.keys (OrderedDict.set k' v d))
  <-> k = k' \/ In k (OrderedDict.keys d).
Proof.
  induction d as [|[k2 v2] d IH]; simpl.
  - intuition auto.
  - destruct (str_eqb k' k2) eqn:E; simpl.
    + apply str_eqb_eq in E. subst k2. intuition auto.
    + rewrite IH. intuition auto.
Qed.

Lemma keys_fold_set k l d :
  In k (OrderedDict.keys
          (fold_left (fun d kv => OrderedDict.set (fst kv) (snd kv) d) l d))
  <-> In k (OrderedDict.keys d) \/ In k (map fst l).
Proof.
  revert d. induction l as [|[k' v] l IH]; intros d; simpl.
  - tauto.
  - rewrite IH, keys_set. intuition auto.
Qed.

Lemma keys_of_list k l :
  In k (OrderedDict.keys (OrderedDict.of_list l)) <-> In k (map fst l).
Proof.
  unfold OrderedDict.of_list. rewrite keys_fold_set. simpl. tauto.
Qed.

(** The value kept under a key is the one of the last pair with that key. *)
Lemma get_fold_set k l d :
  OrderedDict.get k
    (fold_left (fun d kv => OrderedDict.set (fst kv) (snd kv) d) l d)
  = match find (fun kv => str_eqb k (fst kv)) (rev l) with
    | Some kv => Some (snd kv)
    | None => OrderedDict.get k d
    end.
Proof.
  revert d. induction l as [|[k' v] l IH]; intros d; simpl;
    [reflexivity|].
  rewrite IH, get_set.
  assert (Hfind : forall (f : pystr * V -> bool) a b,
             find f (a ++ b) = match find f a with
                               | Some x => Some x
                               | None => find f b
                               end).
  { intros f a b. induction a as [|x a IHa]; simpl; [reflexivity|].
    destruct (f x); [reflexivity|apply IHa]. }
  rewrite Hfind. simpl.
  destruct (find (fun kv => str_eqb k (fst kv)) (rev l)); [reflexivity|].
  destruct (str_eqb k k'); reflexivity.
Qed.

Lemma get_of_list k l :
  OrderedDict.get k (OrderedDict.of_list l)
  = option_map snd (find (fun kv => str_eqb k (fst kv)) (rev l)).
Proof.
  unfold OrderedDict.of_list. rewrite get_fold_set. simpl.
  destruct (find _ (rev l)); reflexivity.
Qed.

End DictFacts.

(** ** [HandlerListDMenu] *)

Section HandlerListFacts.
Variable W : Type.
Implicit Types (fn : pyfunction W) (handlers : list (pyfunction W)).

Lemma insert_perm (x : pystr * pyfunction W) l r :
  insert (@tuple_lt W) x l = Ok r -> Permutation r (x :: l).
Proof.
  revert r. induction l as [|y l IH]; simpl; intros r.
  - intros [= <-]. reflexivity.
  - destruct (tuple_lt y x) as [[|]|]; simpl; try discriminate.
    + destruct (insert (@tuple_lt W) x l) as [r'|]; simpl;
        [|discriminate].
      intros [= <-]. rewrite (IH r' eq_refl). apply perm_swap.
    + intros [= <-]. reflexivity.
Qed.

Lemma sorted_perm (l r : list (pystr * pyfunction W)) :
  sorted (@tuple_lt W) l = Ok r -> Permutation r l.
Proof.
  revert r. induction l as [|x l IH]; simpl; intros r.
  - intros [= <-]. reflexivity.
  - destruct (sorted (@tuple_lt W) l) as [s|]; simpl; [|discriminate].
    intros H. apply insert_perm in H. rewrite H.
    constructor. now apply IH.
Qed.

Lemma In_handler_list name handlers :
  In name (map fst (map tuple (filter nullary handlers)))
  <-> exists fn, In fn handlers /\ fn_parameters fn = 0 /\ fn_name fn = name.
Proof.
  rewrite map_map. simpl. rewrite in_map_iff. split.
  - intros [fn [Hname Hin]]. apply filter_In in Hin.
    destruct Hin as [Hin Hp]. exists fn.
    repeat split; [assumption| |assumption].
    now apply Nat.eqb_eq in Hp.
  - intros [fn [Hin [Hp Hname]]]. exists fn. split; [assumption|].
    apply filter_In. split; [assumption|].
    now apply Nat.eqb_eq.
Qed.

(** Whenever the constructor returns, the options are exactly the names of
    the handlers without parameters. *)
Lemma HandlerListDMenu_options handlers (sort : bool)
    (self : HandlerListDMenu W) name :
  HandlerListDMenu_init handlers sort = Ok self ->
  In (PyStr name) (create_options self)
  <-> exists fn, In fn handlers /\ fn_parameters fn = 0 /\ fn_name fn = name.
Proof.
  unfold HandlerListDMenu_init. fold (@tuple W). fold (@nullary W).
  intros Hinit. rewrite <- In_handler_list.
  destruct sort.
  - destruct (sorted (@tuple_lt W) (map tuple (filter nullary handlers)))
      as [l|] eqn:Hs; simpl in Hinit; [|discriminate].
    injection Hinit as <-. simpl.
    assert (Hperm := sorted_perm _ Hs).
    split.
    + intros H. apply In_map_PyStr in H. rewrite keys_of_list in H.
      now apply (Permutation_in _ (Permutation_map fst Hperm)).
    + intros H. apply in_map. rewrite keys_of_list.
      now apply (Permutation_in _
                   (Permutation_sym (Permutation_map fst Hperm))).
  - simpl in Hinit. injection Hinit as <-. simpl. split.
    + intros H. apply In_map_PyStr in H. now rewrite keys_of_list in H.
    + intros H. apply in_map. now rewrite keys_of_list.
Qed.

(** Without sorting the constructor always returns, and a name shared by
    several handlers without parameters keeps the last of them. *)
Lemma HandlerListDMenu_unsorted_last_wins handlers :
  exists self,
    HandlerListDMenu_init handlers false = Ok self
    /\ forall name,
         OrderedDict.get name (option_handlers self)
         = find (fun fn => str_eqb name (fn_name fn))
                (rev (filter nullary handlers)).
Proof.
  eexists. split; [reflexivity|]. intros name. simpl.
  rewrite get_of_list. fold (@nullary W).
  rewrite <- map_rev.
  induction (rev (filter nullary handlers)) as [|fn l IH]; simpl;
    [reflexivity|].
  destruct (str_eqb name (fn_name fn)); [reflexivity|exact IH].
Qed.

(** With sorting the constructor returns whenever the handlers without
    parameters have pairwise distinct names. *)
Lemma HandlerListDMenu_sorted_distinct handlers :
  NoDup (map (@fn_name W) (filter nullary handlers)) ->
  HandlerListDMenu_init handlers true
  = Ok {| option_handlers :=
            sort_by_name (map tuple (filter nullary handlers)) |}.
Proof.
  intros Hnd. unfold HandlerListDMenu_init. fold (@tuple W). fold (@nullary W).
  assert (Hnd' : NoDup (map fst (map tuple (filter nullary handlers)))).
  { rewrite map_map. exact Hnd. }
  rewrite (sorted_tuple_lt _ Hnd'). simpl.
  rewrite of_list_distinct; [reflexivity|].
  apply (Permutation_NoDup
           (Permutation_sym (Permutation_map fst (sort_by_name_perm _)))).
  exact Hnd'.
Qed.

Lemma filter_nullary_all handlers :
  Forall (fun fn => fn_parameters fn = 0) handlers ->
  filter nullary handlers = handlers.
Proof.
  induction 1 as [|fn l Hfn _ IH]; simpl; [reflexivity|].
  unfold nullary at 1. rewrite Hfn. simpl. now rewrite IH.
Qed.

End HandlerListFacts.

(** C7. For handlers without parameters and with pairwise distinct names,
    [sort=True] yields the names in increasing lexicographic order and
    [sort=False] yields them in the order supplied. *)
Theorem HandlerListDMenu_option_order (W : Type)
    (handlers : list (pyfunction W)) :
  NoDup (map (@fn_name W) handlers) ->
  Forall (fun fn => fn_parameters fn = 0) handlers ->
  (exists self names,
     HandlerListDMenu_init handlers true = Ok self
     /\ create_options self = map PyStr names
     /\ Permutation names (map (@fn_name W) handlers)
     /\ StronglySorted str_lt names)
  /\ (exists self,
        HandlerListDMenu_init handlers false = Ok self
        /\ create_options self = map PyStr (map (@fn_name W) handlers)).
Proof.
  intros Hnd Hall.
  pose proof (filter_nullary_all Hall) as Hf.
  set (handler_list := map (@tuple W) handlers).
  assert (Hnames : map fst handler_list = map (@fn_name W) handlers).
  { unfold handler_list. rewrite map_map. reflexivity. }
  assert (Hnd' : NoDup (map fst handler_list)) by now rewrite Hnames.
  split.
  - exists {| option_handlers := sort_by_name handler_list |}.
    exists (map fst (sort_by_name handler_list)).
    split; [|split; [|split]].
    + rewrite HandlerListDMenu_sorted_distinct; rewrite Hf;
        [reflexivity|exact Hnd].
    + reflexivity.
    + rewrite <- Hnames.
      apply Permutation_map, sort_by_name_perm.
    + apply Sorted_StronglySorted;
        [intros a b c; apply str_lt_trans|].
      apply Sorted_map_fst. now apply sort_by_name_sorted.
  - exists {| option_handlers := handler_list |}. split.
    + unfold HandlerListDMenu_init. fold (@nullary W). rewrite Hf.
      fold (@tuple W). fold handler_list. simpl.
      now rewrite of_list_distinct.
    + simpl. unfold OrderedDict.keys. now rewrite Hnames.
Qed.

Lemma HandlerListDMenu_option_order_witness :
  (exists self,
     HandlerListDMenu_init [fn0 1 "banana"; fn0 2 "apple"] true = Ok self
     /\ create_options self = [PyStr (py "apple"); PyStr (py "banana")])
  /\ (exists self,
        HandlerListDMenu_init [fn0 1 "banana"; fn0 2 "apple"] false
        = Ok self
        /\ create_options self = [PyStr (py "banana"); PyStr (py "apple")]).
Proof.
  destruct (@HandlerListDMenu_option_order (list nat)
              [fn0 1 "banana"; fn0 2 "apple"])
    as [[self [names [Hinit [Hopts _]]]] [self' [Hinit' Hopts']]].
  - vm_compute. repeat constructor.
    + intros [H|[]]. discriminate H.
    + intros [].
  - repeat constructor.
  - split.
    + exists self. split; [exact Hinit|].
      vm_compute in Hinit. injection Hinit as <-. reflexivity.
    + exists self'. split; [exact Hinit'|exact Hopts'].
Defined.

(** C4 (defect in the code). Two different functions, both named [a] and
    both without parameters: in the default configuration [sorted] compares
    the tuples [('a', f)] and [('a', g)], the names tie, the functions are
    compared and the constructor raises [TypeError]; with [sort=False] it
    returns and the mapping keeps the last one. *)
Theorem HandlerListDMenu_duplicate_names_raise :
  let f := fn0 1 "a" in
  let g := fn0 2 "a" in
  HandlerListDMenu_init [f; g] true = Err TypeError
  /\ HandlerListDMenu_init [f; g] false
     = Ok {| option_handlers := [(py "a", g)] |}.
Proof. split; vm_compute; reflexivity. Qed.

(** C6 (defect in the code). Handlers [a()], [b(x)], [c()] give the options
    [a] and [c]; with a second function named [c] supplied as well, the
    default configuration produces no options at all, the constructor
    having raised [TypeError]. *)
Theorem HandlerListDMenu_duplicate_name_gives_no_options :
  (exists self,
     HandlerListDMenu_init [fn0 1 "a"; fn1 2 "b"; fn0 3 "c"] true = Ok self
     /\ create_options self = [PyStr (py "a"); PyStr (py "c")])
  /\ HandlerListDMenu_init [fn0 1 "a"; fn1 2 "b"; fn0 3 "c"; fn0 4 "c"] true
     = Err TypeError.
Proof.
  split; [|vm_compute; reflexivity].
  eexists. split; vm_compute; reflexivity.
Qed.

(** ** [HandlerDMenu] *)

Section HandlerDMenuFacts.
Variable W : Type.

Lemma In_getmembers (object : pyobject W) (m : pystr * attr W) :
  In m (getmembers object (@isfunction W))
  <-> In m object /\ isfunction (snd m) = true.
Proof.
  unfold getmembers. split; intros H.
  - apply (Permutation_in _ (sort_by_name_perm _)) in H.
    now apply filter_In in H.
  - apply (Permutation_in _ (Permutation_sym (sort_by_name_perm _))).
    now apply filter_In.
Qed.

(** The constructor always returns; the options are the [__name__]s of the
    function members without parameters whose attribute name does not begin
    with two underscores. *)
Lemma HandlerDMenu_options (object : pyobject W) :
  exists self,
    HandlerDMenu_init object = Ok self
    /\ forall name,
         In (PyStr name) (create_options self)
         <-> exists attr_name fn,
               In (attr_name, AttrFunction fn) object
               /\ startswith attr_name (py "__") = false
               /\ fn_parameters fn = 0
               /\ fn_name fn = name.
Proof.
  unfold HandlerDMenu_init.
  eexists. split; [reflexivity|]. intros name.
  rewrite (@HandlerListDMenu_options W _ false _ name eq_refl).
  split.
  - intros [fn [Hin [Hp Hname]]].
    apply in_flat_map in Hin. destruct Hin as [[attr_name a] [Hm Hfn]].
    apply In_getmembers in Hm. destruct Hm as [Hm _]. simpl in Hfn.
    destruct a as [fn'|]; [|contradiction].
    destruct (startswith attr_name (py "__")) eqn:E; simpl in Hfn;
      [contradiction|].
    destruct Hfn as [->|[]]. now exists attr_name, fn.
  - intros [attr_name [fn [Hin [Hs [Hp Hname]]]]].
    exists fn. repeat split; try assumption.
    apply in_flat_map. exists (attr_name, AttrFunction fn). split.
    + apply In_getmembers. now split.
    + simpl. rewrite Hs. now left.
Qed.

(** When every function is found under its own [__name__], no option begins
    with two underscores. *)
Lemma HandlerDMenu_no_dunder_when_names_agree (object : pyobject W)
    (self : HandlerListDMenu W) (name : pystr) :
  (forall attr_name fn,
     In (attr_name, AttrFunction fn) object -> fn_name fn = attr_name) ->
  HandlerDMenu_init object = Ok self ->
  In (PyStr name) (create_options self) ->
  startswith name (py "__") = false.
Proof.
  intros Hagree Hinit Hin.
  destruct (HandlerDMenu_options object) as [self' [Hinit' Hopts]].
  rewrite Hinit in Hinit'. injection Hinit' as <-.
  apply Hopts in Hin.
  destruct Hin as [attr_name [fn [Hm [Hs [_ Hname]]]]].
  rewrite <- Hname, (Hagree _ _ Hm). exact Hs.
Qed.

End HandlerDMenuFacts.

(** C8 (defect in the code). The filter reads the attribute name, the
    option shown is the function's [__name__]. A module defining
    [__reset()] and the alias [reset = __reset] offers the option
    [__reset]; a class [Menu] defining [__hidden()], which Python stores
    under [_Menu__hidden], offers the option [__hidden]. *)
Theorem HandlerDMenu_offers_dunder_function :
  let reset := fn0 1 "__reset" in
  let hidden := fn0 2 "__hidden" in
  (exists self,
     HandlerDMenu_init [(py "__reset", AttrFunction reset);
                        (py "reset", AttrFunction reset)] = Ok self
     /\ create_options self = [PyStr (py "__reset")]
     /\ startswith (py "__reset") (py "__") = true)
  /\ (exists self,
        HandlerDMenu_init [(py "_Menu__hidden", AttrFunction hidden)]
        = Ok self
        /\ create_options self = [PyStr (py "__hidden")]
        /\ startswith (py "__hidden") (py "__") = true).
Proof.
  split; eexists; repeat split; vm_compute; reflexivity.
Qed.

(* ================================================================== *)
(** * Further properties of the code *)

(** ** [dmenu]: what comes back *)

Lemma rstrip_fixed_last (s : pystr) (c : N) :
  rstrip (s ++ [c]) = s ++ [c] -> isspace c = false.
Proof.
  induction s as [|a s IH]; simpl.
  - destruct (isspace c); [discriminate|reflexivity].
  - destruct (rstrip (s ++ [c])) as [|b r] eqn:E.
    + destruct (isspace a); intros H; [discriminate H|].
      injection H as H. now destruct s.
    + intros [= H]. now apply IH.
Qed.

(** X1. Whatever text [dmenu] returns is one of the options and is the
    stripped output of the selector, so it never ends in white space: an
    option with trailing white space cannot be returned. *)
Theorem dmenu_result_is_stripped (sel : selector) (options : list pyval)
    (args : list pystr) (path : pystr) (s : pystr) :
  dmenu sel options args path = Ok (PyStr s) ->
  In (PyStr s) options
  /\ (exists text,
        decoded_output sel options args path = Ok text /\ s = rstrip text)
  /\ forall s' c, s = (s' ++ [c])%list -> isspace c = false.
Proof.
  rewrite dmenu_decoded.
  destruct (decoded_output sel options args path) as [text|];
    simpl; [|discriminate].
  destruct (contains (rstrip text) options) eqn:E; [|discriminate].
  intros [= <-]. split; [now apply contains_In|].
  split; [now exists text|].
  intros s' c Hs. apply (rstrip_fixed_last s').
  rewrite <- Hs. apply rstrip_idempotent.
Qed.

Lemma dmenu_result_is_stripped_witness :
  In (PyStr (py "b")) [PyStr (py "a"); PyStr (py "b")]
  /\ isspace 98 = false.
Proof.
  destruct (@dmenu_result_is_stripped (say (py "b  " ++ NL))
              [PyStr (py "a"); PyStr (py "b")] [] DEFAULT_DMENU_PATH
              (py "b")) as [Hin [_ Hlast]].
  - vm_compute. reflexivity.
  - split; [exact Hin|]. exact (Hlast [] 98%N eq_refl).
Defined.



(** X3. A driver that produces no options never reaches its handling step:
    whatever the selector answers, nothing matches and [run] leaves the
    world as it was. The base class [DMenu] is such a driver. *)
Theorem run_without_options (S W : Type) (D : DMenu S W) (self : S)
    (sel : selector) (args : list pystr) (path : pystr) (w : W)
    (text : pystr) :
  create_options self = [] ->
  decoded_output sel [] args path = Ok text ->
  dmenu sel (create_options self) args path = Ok PyNone
  /\ run self sel args path w = Ok w.
Proof.
  intros Hopts Hout. unfold run. rewrite Hopts, dmenu_decoded, Hout.
  simpl. now split.
Qed.

Lemma run_without_options_witness :
  run (D := DMenu_base (list nat)) tt (say (py "anything")) []
      DEFAULT_DMENU_PATH [7]
  = Ok [7].
Proof.
  refine (proj2 (@run_without_options _ _ (DMenu_base (list nat)) tt
            (say (py "anything")) [] DEFAULT_DMENU_PATH [7]
            (py "anything") _ _)).
  - reflexivity.
  - vm_compute. reflexivity.
Defined.

(** ** [HandlerListDMenu.handle_option] called directly *)

(** X4. [handle_option] does nothing on a falsy option ([None] or the empty
    text) and raises [KeyError] on a truthy option that is not a name in
    [option_handlers]; the [options] argument plays no part. *)
Theorem handle_option_missing_key (W : Type) (self : HandlerListDMenu W)
    (option : pyval) (options : list pyval) (w : W) :
  ~ In option (create_options self) ->
  handle_option self option options w
  = (if truthy option then Err KeyError else Ok w).
Proof.
  intros Hnin. simpl. destruct (truthy option); [|reflexivity].
  destruct option as [s| | | |]; simpl; try reflexivity.
  destruct (OrderedDict.get s (option_handlers self)) as [fn|] eqn:Hget;
    [|reflexivity].
  exfalso. apply Hnin. simpl. apply in_map.
  clear Hnin. induction (option_handlers self) as [|[k v] d IH];
    simpl in *; [discriminate|].
  destruct (str_eqb s k) eqn:E; [left|right; now apply IH].
  apply str_eqb_eq in E. now subst.
Qed.

Lemma handle_option_missing_key_witness :
  let self := {| option_handlers := [(py "lock", fn0 1 "lock")] |} in
  handle_option self (PyStr (py "halt")) [] [] = Err KeyError
  /\ handle_option self PyNone [] [] = Ok [].
Proof.
  cbv zeta. split.
  - refine (@handle_option_missing_key (list nat)
              {| option_handlers := [(py "lock", fn0 1 "lock")] |}
              (PyStr (py "halt")) [] [] _).
    vm_compute. intros [H|[]]. discriminate H.
  - refine (@handle_option_missing_key (list nat)
              {| option_handlers := [(py "lock", fn0 1 "lock")] |}
              PyNone [] [] _).
    vm_compute. intros [H|[]]. discriminate H.
Defined.

(** ** UTF-8: what is written can be read back *)

Section Utf8.
Local Open Scope N_scope.

Lemma to_N_byte_of (n : N) : n < 256 -> Byte.to_N (byte_of n) = n.
Proof.
  intros Hn. unfold byte_of. rewrite N.mod_small by exact Hn.
  destruct (Byte.of_N n) as [b|] eqn:E.
  - now apply Byte.to_of_N.
  - apply Byte.of_N_None_iff in E. lia.
Qed.

Lemma cont_cont_byte (b : byte) (r : N) :
  r < 64 -> Byte.to_N b = 128 + r -> cont b = Some r.
Proof.
  intros Hr Hb. unfold cont. cbv zeta. rewrite Hb.
  replace (128 <=? 128 + r) with true by (symmetry; apply N.leb_le; lia).
  replace (128 + r <? 192) with true by (symmetry; apply N.ltb_lt; lia).
  cbn [andb]. f_equal. lia.
Qed.

Ltac lead_byte H :=
  rewrite H;
  repeat match goal with
         | |- context [?a <? ?b] =>
             first [ replace (a <? b) with true
                       by (symmetry; apply N.ltb_lt; lia)
                   | replace (a <? b) with false
                       by (symmetry; apply N.ltb_ge; lia) ]
         end.

Lemma decode_1 (b0 : byte) (rest : list byte) (c : N) :
  c < 128 -> Byte.to_N b0 = c ->
  decode (b0 :: rest) = option_map (cons c) (decode rest).
Proof.
  intros Hc H0. cbn [decode]. cbv zeta. lead_byte H0. reflexivity.
Qed.

Lemma decode_2 (b0 b1 : byte) (rest : list byte) (q r : N) :
  q < 32 -> r < 64 -> 128 <= q * 64 + r ->
  Byte.to_N b0 = 192 + q -> Byte.to_N b1 = 128 + r ->
  decode (b0 :: b1 :: rest) = option_map (cons (q * 64 + r)) (decode rest).
Proof.
  intros Hq Hr Hc H0 H1. cbn [decode]. cbv zeta.
  rewrite (cont_cont_byte b1 Hr H1). lead_byte H0.
  replace (192 + q - 192) with q by lia.
  unfold cons_cp.
  now replace (128 <=? q * 64 + r) with true
    by (symmetry; apply N.leb_le; lia).
Qed.

Lemma decode_3 (b0 b1 b2 : byte) (rest : list byte) (p q r : N) :
  p < 16 -> q < 64 -> r < 64 ->
  2048 <= p * 4096 + q * 64 + r ->
  (p * 4096 + q * 64 + r < 55296 \/ 57343 < p * 4096 + q * 64 + r) ->
  Byte.to_N b0 = 224 + p -> Byte.to_N b1 = 128 + q ->
  Byte.to_N b2 = 128 + r ->
  decode (b0 :: b1 :: b2 :: rest)
  = option_map (cons (p * 4096 + q * 64 + r)) (decode rest).
Proof.
  intros Hp Hq Hr Hc Hs H0 H1 H2. cbn [decode]. cbv zeta.
  rewrite (cont_cont_byte b1 Hq H1), (cont_cont_byte b2 Hr H2).
  lead_byte H0.
  replace (224 + p - 224) with p by lia.
  unfold cons_cp.
  replace (2048 <=? p * 4096 + q * 64 + r) with true
    by (symmetry; apply N.leb_le; lia).
  replace ((55296 <=? p * 4096 + q * 64 + r)
           && (p * 4096 + q * 64 + r <=? 57343)) with false;
    [reflexivity|].
  symmetry. apply andb_false_iff.
  destruct Hs; [left; apply N.leb_gt|right; apply N.leb_gt]; lia.
Qed.

Lemma decode_4 (b0 b1 b2 b3 : byte) (rest : list byte) (o p q r : N) :
  o < 8 -> p < 64 -> q < 64 -> r < 64 ->
  65536 <= o * 262144 + p * 4096 + q * 64 + r ->
  o * 262144 + p * 4096 + q * 64 + r < 1114112 ->
  Byte.to_N b0 = 240 + o -> Byte.to_N b1 = 128 + p ->
  Byte.to_N b2 = 128 + q -> Byte.to_N b3 = 128 + r ->
  decode (b0 :: b1 :: b2 :: b3 :: rest)
  = option_map (cons (o * 262144 + p * 4096 + q * 64 + r)) (decode rest).
Proof.
  intros Ho Hp Hq Hr Hc Hmax H0 H1 H2 H3. cbn [decode]. cbv zeta.
  rewrite (cont_cont_byte b1 Hp H1), (cont_cont_byte b2 Hq H2),
    (cont_cont_byte b3 Hr H3).
  lead_byte H0.
  replace (240 + o - 240) with o by lia.
  unfold cons_cp.
  replace (65536 <=? o * 262144 + p * 4096 + q * 64 + r) with true
    by (symmetry; apply N.leb_le; lia).
  reflexivity.
Qed.

End Utf8.

Section Utf8RoundTrip.
Local Open Scope N_scope.

Ltac divlia := zify; Z.to_euclidean_division_equations; lia.

Lemma decode_encode_cp (c : N) (bs rest : list byte) :
  encode_cp c = Some bs ->
  decode (bs ++ rest) = option_map (cons c) (decode rest).
Proof.
  unfold encode_cp, cont_byte.
  destruct (N.ltb_spec c 128) as [H1|H1].
  { intros [= <-]. apply decode_1; [exact H1|].
    apply to_N_byte_of. lia. }
  destruct (N.ltb_spec c 2048) as [H2|H2].
  { intros [= <-]. simpl app.
    assert (H : decode (byte_of (192 + c / 64)
                        :: byte_of (128 + c mod 64) :: rest)
                = option_map (cons (c / 64 * 64 + c mod 64)) (decode rest))
      by (apply decode_2; try apply to_N_byte_of; divlia).
    replace (c / 64 * 64 + c mod 64) with c in H by divlia. exact H. }
  destruct (N.ltb_spec c 65536) as [H3|H3].
  { destruct ((55296 <=? c) && (c <=? 57343)) eqn:Hs; [discriminate|].
    apply andb_false_iff in Hs.
    assert (Hs' : c < 55296 \/ 57343 < c)
      by (destruct Hs as [Hs|Hs]; apply N.leb_gt in Hs; lia).
    intros [= <-]. simpl app.
    assert (H : decode (byte_of (224 + c / 4096)
                        :: byte_of (128 + (c / 64) mod 64)
                        :: byte_of (128 + c mod 64) :: rest)
                = option_map
                    (cons (c / 4096 * 4096 + (c / 64) mod 64 * 64
                           + c mod 64)) (decode rest))
      by (apply decode_3; try apply to_N_byte_of; divlia).
    replace (c / 4096 * 4096 + (c / 64) mod 64 * 64 + c mod 64)
      with c in H by divlia.
    exact H. }
  destruct (N.ltb_spec c 1114112) as [H4|H4]; [|discriminate].
  intros [= <-]. simpl app.
  assert (H : decode (byte_of (240 + c / 262144)
                      :: byte_of (128 + (c / 4096) mod 64)
                      :: byte_of (128 + (c / 64) mod 64)
                      :: byte_of (128 + c mod 64) :: rest)
              = option_map
                  (cons (c / 262144 * 262144 + (c / 4096) mod 64 * 4096
                         + (c / 64) mod 64 * 64 + c mod 64))
                  (decode rest))
    by (apply decode_4; try apply to_N_byte_of; divlia).
  replace (c / 262144 * 262144 + (c / 4096) mod 64 * 4096
           + (c / 64) mod 64 * 64 + c mod 64) with c in H by divlia.
  exact H.
Qed.

Lemma decode_encode (s : pystr) (bs : list byte) :
  encode s = Some bs -> decode bs = Some s.
Proof.
  revert bs. induction s as [|c s IH]; simpl; intros bs.
  - now intros [= <-].
  - destruct (encode_cp c) as [b|] eqn:Hc; [|discriminate].
    destruct (encode s) as [rest|]; [|discriminate].
    intros [= <-]. rewrite (@decode_encode_cp c b rest Hc), (IH rest eq_refl).
    reflexivity.
Qed.

Lemma encode_cp_encodable (c : N) :
  encodable c = true <-> exists bs, encode_cp c = Some bs.
Proof.
  unfold encodable, encode_cp.
  destruct (N.ltb_spec c 128); destruct (N.ltb_spec c 2048);
    destruct (N.ltb_spec c 65536); destruct (N.ltb_spec c 1114112);
    destruct (N.ltb_spec c 55296); destruct (N.ltb_spec 57343 c);
    destruct (N.leb_spec 55296 c); destruct (N.leb_spec c 57343);
    try lia; cbn [andb orb];
    (split; [intros Hb; try discriminate Hb; eauto
            |intros [bs Hbs]; try discriminate Hbs; reflexivity]).
Qed.

Lemma encode_app (a b : pystr) :
  encode (a ++ b)
  = match encode a, encode b with
    | Some x, Some y => Some (x ++ y)%list
    | _, _ => None
    end.
Proof.
  induction a as [|c a IH]; simpl.
  - now destruct (encode b).
  - rewrite IH. destruct (encode_cp c), (encode a), (encode b);
      try reflexivity.
    now rewrite app_assoc.
Qed.

Lemma encode_Some_iff (s : pystr) :
  (exists bs, encode s = Some bs)
  <-> Forall (fun c => encodable c = true) s.
Proof.
  induction s as [|c s IH]; simpl.
  - split; [constructor|now exists []].
  - split.
    + intros [bs H].
      destruct (encode_cp c) as [b|] eqn:Hc; [|discriminate].
      destruct (encode s) as [rest|]; [|discriminate].
      constructor; [apply encode_cp_encodable; eauto|].
      apply IH. eauto.
    + intros H. inversion H as [|? ? Hc Hs]; subst.
      apply encode_cp_encodable in Hc. destruct Hc as [b ->].
      apply IH in Hs. destruct Hs as [rest ->]. eauto.
Qed.

Lemma Forall_join (P : N -> Prop) (sep : pystr) (parts : list pystr) :
  Forall P sep -> Forall (Forall P) parts -> Forall P (join sep parts).
Proof.
  intros Hsep. induction 1 as [|p parts Hp Hparts IH]; [constructor|].
  destruct parts as [|p' parts]; [exact Hp|].
  change (Forall P (p ++ sep ++ join sep (p' :: parts))%list).
  apply Forall_app. split; [exact Hp|].
  apply Forall_app. split; [exact Hsep|exact IH].
Qed.

Lemma Forall_join_inv (P : N -> Prop) (sep : pystr) (parts : list pystr) :
  Forall P (join sep parts) -> Forall (Forall P) parts.
Proof.
  induction parts as [|p parts IH]; [constructor|].
  destruct parts as [|p' parts].
  - intros H. repeat constructor. exact H.
  - change (Forall P (p ++ sep ++ join sep (p' :: parts))%list ->
            Forall (Forall P) (p :: p' :: parts)).
    intros H. apply Forall_app in H. destruct H as [Hp H].
    apply Forall_app in H. destruct H as [_ H].
    constructor; [exact Hp|now apply IH].
Qed.

End Utf8RoundTrip.

(** ** [dmenu]: what the selector is given *)

Lemma In_join (c : N) (sep : pystr) (parts : list pystr) :
  In c (join sep parts) ->
  In c sep \/ exists p, In p parts /\ In c p.
Proof.
  induction parts as [|p parts IH]; [intros []|].
  destruct parts as [|p' parts].
  - intros H. right. exists p. split; [now left|exact H].
  - change (In c (p ++ sep ++ join sep (p' :: parts))%list ->
            In c sep \/ exists q, In q (p :: p' :: parts) /\ In c q).
    intros H. apply in_app_or in H. destruct H as [H|H].
    + right. exists p. split; [now left|exact H].
    + apply in_app_or in H. destruct H as [H|H]; [now left|].
      destruct (IH H) as [Hs|[q [Hq Hc]]]; [now left|].
      right. exists q. split; [now right|exact Hc].
Qed.

Lemma In_join_part (c : N) (sep p : pystr) (parts : list pystr) :
  In p parts -> In c p -> In c (join sep parts).
Proof.
  induction parts as [|p0 parts IH]; [intros []|].
  destruct parts as [|p' parts].
  - intros [->|[]] Hc. exact Hc.
  - change (In p (p0 :: p' :: parts) -> In c p ->
            In c (p0 ++ sep ++ join sep (p' :: parts))%list).
    intros [->|Hp] Hc; apply in_or_app; [now left|right].
    apply in_or_app. right. now apply IH.
Qed.

Lemma encode_None_iff (s : pystr) :
  encode s = None <-> exists c, In c s /\ encodable c = false.
Proof.
  split.
  - intros Henc. induction s as [|c s IH]; simpl in Henc;
      [discriminate|].
    destruct (encodable c) eqn:Ec.
    + apply encode_cp_encodable in Ec. destruct Ec as [bs Hbs].
      rewrite Hbs in Henc.
      destruct (encode s); [discriminate|].
      destruct (IH eq_refl) as [c' [Hin Hc']].
      exists c'. split; [now right|exact Hc'].
    + exists c. split; [now left|exact Ec].
  - intros [c [Hin Hc]].
    destruct (encode s) as [bs|] eqn:Henc; [|reflexivity].
    assert (H : Forall (fun c => encodable c = true) s)
      by (apply encode_Some_iff; eauto).
    rewrite Forall_forall in H. rewrite (H c Hin) in Hc. discriminate.
Qed.

(** X5. Writing the options and reading them back loses nothing: a
    selector that echoes all it was given yields, once decoded, exactly the
    option texts joined by newlines, whenever that text can be encoded. *)
Theorem echo_returns_option_lines (options : list pyval)
    (args : list pystr) (path : pystr) :
  Forall (fun o => Forall (fun c => encodable c = true) (str o)) options ->
  decoded_output cat options args path = Ok (join NL (map str options)).
Proof.
  intros Hopts. unfold decoded_output, cat. simpl.
  assert (H : Forall (fun c => encodable c = true)
                (join NL (map str options))).
  { apply Forall_join; [repeat constructor|].
    now apply Forall_map. }
  apply encode_Some_iff in H. destruct H as [bs Hbs].
  rewrite Hbs. simpl. now rewrite (decode_encode _ Hbs).
Qed.

Lemma echo_returns_option_lines_witness :
  decoded_output cat [PyStr (py "caf" ++ [233%N]); PyInt 7] []
                 DEFAULT_DMENU_PATH
  = Ok (py "caf" ++ [233%N] ++ NL ++ py "7").
Proof.
  apply (@echo_returns_option_lines
           [PyStr (py "caf" ++ [233%N]); PyInt 7] [] DEFAULT_DMENU_PATH).
  repeat constructor.
Defined.

(** X6. Once the selector has been started, [dmenu] raises
    [UnicodeEncodeError] exactly when the text of some option holds a code
    point UTF-8 cannot encode (a surrogate). *)
Theorem dmenu_encode_error_iff (sel : selector) (options : list pyval)
    (args : list pystr) (path : pystr) :
  sel ([path] ++ args) <> None ->
  dmenu sel options args path = Err UnicodeEncodeError
  <-> exists o c, In o options /\ In c (str o) /\ encodable c = false.
Proof.
  intros Hsel. unfold dmenu.
  destruct (sel ([path] ++ args)) as [communicate|];
    [clear Hsel|now contradiction Hsel].
  simpl. split.
  - destruct (encode (join NL (map str options))) as [input|] eqn:Henc;
      simpl.
    + destruct (decode (communicate input)); discriminate.
    + intros _. apply encode_None_iff in Henc.
      destruct Henc as [c [Hin Hc]]. apply In_join in Hin.
      destruct Hin as [Hin|[p [Hp Hin]]].
      * destruct Hin as [<-|[]]. discriminate Hc.
      * apply in_map_iff in Hp. destruct Hp as [o [<- Ho]].
        now exists o, c.
  - intros [o [c [Ho [Hc Hbad]]]].
    assert (Henc : encode (join NL (map str options)) = None).
    { apply encode_None_iff. exists c. split; [|exact Hbad].
      apply (@In_join_part c NL (str o)); [now apply in_map|exact Hc]. }
    now rewrite Henc.
Qed.

Lemma dmenu_encode_error_iff_witness :
  dmenu cat [PyStr (py "ok"); PyStr [55357%N]] [] DEFAULT_DMENU_PATH
  = Err UnicodeEncodeError.
Proof.
  apply (proj2 (@dmenu_encode_error_iff cat
                  [PyStr (py "ok"); PyStr [55357%N]] []
                  DEFAULT_DMENU_PATH ltac:(discriminate))).
  exists (PyStr [55357%N]), 55357%N.
  split; [right; now left|]. split; [now left|reflexivity].
Defined.

(** ** [HandlerListDMenu]: the mapping it builds *)

Section MappingFacts.
Variable V : Type.
Implicit Types (d : OrderedDict.t V) (l : list (pystr * V)).

Lemma keys_set_NoDup k v d :
  NoDup (OrderedDict.keys d) ->
  NoDup (OrderedDict.keys (OrderedDict.set k v d)).
Proof.
  induction d as [|[k' v'] d IH]; simpl; intros Hnd.
  - repeat constructor. intros [].
  - inversion Hnd as [|? ? Hk' Hd]; subst.
    destruct (str_eqb k k') eqn:E; simpl; [now constructor|].
    constructor; [|now apply IH].
    intros H. apply keys_set in H. destruct H as [H|H]; [|contradiction].
    subst k'. now rewrite str_eqb_refl in E.
Qed.

Lemma keys_of_list_NoDup l :
  NoDup (OrderedDict.keys (OrderedDict.of_list l)).
Proof.
  unfold OrderedDict.of_list.
  assert (H : NoDup (OrderedDict.keys (@nil (pystr * V))))
    by constructor.
  revert H. generalize (@nil (pystr * V)) as d.
  induction l as [|[k v] l IH]; simpl; intros d Hd; [exact Hd|].
  apply IH. now apply keys_set_NoDup.
Qed.

Lemma In_set kv k v d :
  In kv (OrderedDict.set k v d) -> kv = (k, v) \/ In kv d.
Proof.
  induction d as [|[k' v'] d IH]; simpl.
  - intros [<-|[]]. now left.
  - destruct (str_eqb k k') eqn:E; simpl.
    + apply str_eqb_eq in E. subst k'. intros [<-|H]; [now left|].
      right. now right.
    + intros [<-|H]; [right; now left|].
      destruct (IH H) as [->|H']; [now left|right; now right].
Qed.

Lemma In_of_list kv l : In kv (OrderedDict.of_list l) -> In kv l.
Proof.
  unfold OrderedDict.of_list.
  assert (H : forall d,
             In kv (fold_left
                      (fun d kv => OrderedDict.set (fst kv) (snd kv) d) l d)
             -> In kv d \/ In kv l).
  { induction l as [|[k v] l IH]; simpl; intros d Hin; [now left|].
    destruct (IH _ Hin) as [H|H]; [|right; now right].
    apply In_set in H. destruct H as [->|H]; [right|]; now left. }
  intros Hin. destruct (H [] Hin) as [[]|Hl]. exact Hl.
Qed.

Lemma get_In k v d : OrderedDict.get k d = Some v -> In (k, v) d.
Proof.
  induction d as [|[k' v'] d IH]; simpl; [discriminate|].
  destruct (str_eqb k k') eqn:E.
  - apply str_eqb_eq in E. subst k'. intros [= ->]. now left.
  - intros H. right. now apply IH.
Qed.

Lemma In_get_NoDup k v d :
  NoDup (OrderedDict.keys d) -> In (k, v) d -> OrderedDict.get k d = Some v.
Proof.
  induction d as [|[k' v'] d IH]; simpl; intros Hnd; [intros []|].
  inversion Hnd as [|? ? Hk' Hd]; subst.
  intros [[= -> ->]|Hin]; [now rewrite str_eqb_refl|].
  destruct (str_eqb k k') eqn:E; [|now apply IH].
  apply str_eqb_eq in E. subst k'. exfalso. apply Hk'.
  unfold OrderedDict.keys.
  change k with (fst (k, v)). now apply in_map.
Qed.

End MappingFacts.

Lemma NoDup_map_PyStr (l : list pystr) : NoDup l -> NoDup (map PyStr l).
Proof.
  induction 1 as [|s l Hs _ IH]; simpl; constructor; [|exact IH].
  intros H. apply In_map_PyStr in H. contradiction.
Qed.

Section MenuInvariant.
Variable W : Type.
Implicit Types (fn : pyfunction W) (handlers : list (pyfunction W)).

(** The entries of a constructed mapping come from the handlers without
    parameters, each under its own name. *)
Lemma option_handlers_entries handlers (sort : bool)
    (self : HandlerListDMenu W) name fn :
  HandlerListDMenu_init handlers sort = Ok self ->
  In (name, fn) (option_handlers self) ->
  fn_name fn = name /\ fn_parameters fn = 0 /\ In fn handlers.
Proof.
  unfold HandlerListDMenu_init. fold (@tuple W). fold (@nullary W).
  intros Hinit Hin.
  assert (Hl : In (name, fn) (map (@tuple W) (filter (@nullary W) handlers))).
  { destruct sort.
    - destruct (sorted (@tuple_lt W)
                  (map (@tuple W) (filter (@nullary W) handlers)))
        as [r|] eqn:Hs; simpl in Hinit; [|discriminate].
      injection Hinit as <-. simpl in Hin. apply In_of_list in Hin.
      now apply (Permutation_in _ (sorted_perm _ Hs)).
    - simpl in Hinit. injection Hinit as <-. simpl in Hin.
      now apply In_of_list in Hin. }
  apply in_map_iff in Hl. destruct Hl as [fn' [[= <- <-] Hf]].
  apply filter_In in Hf. destruct Hf as [Hf Hp].
  repeat split; [|exact Hf]. now apply Nat.eqb_eq in Hp.
Qed.

Lemma option_handlers_keys_NoDup handlers (sort : bool)
    (self : HandlerListDMenu W) :
  HandlerListDMenu_init handlers sort = Ok self ->
  NoDup (OrderedDict.keys (option_handlers self)).
Proof.
  unfold HandlerListDMenu_init. intros Hinit.
  destruct (if sort then _ else _) as [r|]; simpl in Hinit;
    [|discriminate].
  injection Hinit as <-. simpl. apply keys_of_list_NoDup.
Qed.

End MenuInvariant.

(** X7. Invariant of a constructed [HandlerListDMenu], sorted or not: no
    option is offered twice, and every name looks up a handler that was
    supplied, takes no parameters and carries that very name. *)
Theorem HandlerListDMenu_mapping_invariant (W : Type)
    (handlers : list (pyfunction W)) (sort : bool)
    (self : HandlerListDMenu W) :
  HandlerListDMenu_init handlers sort = Ok self ->
  NoDup (create_options self)
  /\ forall name fn,
       OrderedDict.get name (option_handlers self) = Some fn ->
       fn_name fn = name /\ fn_parameters fn = 0 /\ In fn handlers.
Proof.
  intros Hinit. split.
  - simpl. apply NoDup_map_PyStr.
    exact (option_handlers_keys_NoDup _ _ Hinit).
  - intros name fn Hget. apply get_In in Hget.
    exact (option_handlers_entries _ _ _ _ Hinit Hget).
Qed.

Lemma HandlerListDMenu_mapping_invariant_witness :
  NoDup [PyStr (py "a"); PyStr (py "c")].
Proof.
  destruct (@HandlerListDMenu_mapping_invariant (list nat)
              [fn0 1 "c"; fn1 2 "b"; fn0 3 "a"; fn0 1 "c"] true
              {| option_handlers := [(py "a", fn0 3 "a");
                                     (py "c", fn0 1 "c")] |})
    as [Hnd _].
  - vm_compute. reflexivity.
  - exact Hnd.
Defined.

(** ** [HandlerListDMenu]: when sorting raises *)

Lemma str_le_trans (a b c : pystr) : str_le a b -> str_le b c -> str_le a c.
Proof.
  unfold str_le. intros Hab Hbc.
  destruct (str_cmp a b) eqn:Eab; [| |now contradiction Hab].
  - apply str_cmp_eq in Eab. now subst.
  - destruct (str_cmp b c) eqn:Ebc; [| |now contradiction Hbc].
    + apply str_cmp_eq in Ebc. subst. now rewrite Eab.
    + now rewrite (@str_lt_trans a b c Eab Ebc).
Qed.

Section SortedRaises.
Variable W : Type.
Implicit Types (x y : pystr * pyfunction W)
  (l r : list (pystr * pyfunction W)).

Lemma tuple_lt_Err x y e :
  tuple_lt x y = Err e -> e = TypeError /\ unordered x y.
Proof.
  unfold tuple_lt, unordered.
  destruct (str_eqb (fst x) (fst y)) eqn:En; [|discriminate].
  destruct (Nat.eqb_spec (fn_id (snd x)) (fn_id (snd y))); [discriminate|].
  intros [= <-]. apply str_eqb_eq in En. now repeat split.
Qed.

Lemma tuple_lt_true x y :
  tuple_lt x y = Ok true -> fst x <> fst y /\ str_lt (fst x) (fst y).
Proof.
  unfold tuple_lt.
  destruct (str_eqb (fst x) (fst y)) eqn:En.
  - destruct (Nat.eqb _ _); discriminate.
  - intros [= H]. split; [now apply str_eqb_neq|now apply str_ltb_lt].
Qed.

Lemma tuple_lt_false x y :
  tuple_lt x y = Ok false ->
  name_le y x /\ (fst x = fst y -> fn_id (snd x) = fn_id (snd y)).
Proof.
  unfold tuple_lt, name_le.
  destruct (str_eqb (fst x) (fst y)) eqn:En.
  - apply str_eqb_eq in En.
    destruct (Nat.eqb_spec (fn_id (snd x)) (fn_id (snd y)));
      [|discriminate].
    intros _. split; [|easy].
    rewrite En. now rewrite (proj2 (str_cmp_eq _ _) eq_refl).
  - intros [= H]. apply str_eqb_neq in En. split; [|easy].
    now rewrite (str_ltb_false_neq H En).
Qed.

Lemma insert_Err x l e :
  insert (@tuple_lt W) x l = Err e ->
  e = TypeError /\ exists y, In y l /\ unordered y x.
Proof.
  induction l as [|y l IH]; simpl; [discriminate|].
  destruct (tuple_lt y x) as [[|]|e'] eqn:Ht; simpl.
  - destruct (insert (@tuple_lt W) x l) as [r|e'']; simpl;
      [discriminate|].
    intros [= <-]. destruct (IH eq_refl) as [-> [z [Hz Hu]]].
    split; [reflexivity|]. exists z. split; [now right|exact Hu].
  - discriminate.
  - intros [= <-]. apply tuple_lt_Err in Ht. destruct Ht as [-> Hu].
    split; [reflexivity|]. exists y. split; [now left|exact Hu].
Qed.

Lemma sorted_Err l e :
  sorted (@tuple_lt W) l = Err e ->
  e = TypeError /\ exists x y, In x l /\ In y l /\ unordered x y.
Proof.
  induction l as [|x l IH]; simpl; [discriminate|].
  destruct (sorted (@tuple_lt W) l) as [s|e'] eqn:Hs; simpl.
  - intros H. apply insert_Err in H. destruct H as [-> [y [Hy Hu]]].
    split; [reflexivity|]. exists y, x.
    repeat split; try apply Hu; [right|now left].
    now apply (Permutation_in _ (sorted_perm _ Hs)).
  - intros [= <-]. destruct (IH eq_refl) as [-> [a [b [Ha [Hb Hu]]]]].
    split; [reflexivity|]. exists a, b.
    repeat split; try apply Hu; now right.
Qed.

Lemma insert_Ok_sorted x l r :
  StronglySorted name_le l ->
  insert (@tuple_lt W) x l = Ok r ->
  StronglySorted name_le r.
Proof.
  revert r. induction l as [|y l IH]; simpl; intros r Hs.
  - intros [= <-]. repeat constructor.
  - inversion Hs as [|? ? Hs' Hall]; subst.
    destruct (tuple_lt y x) as [[|]|] eqn:Ht; simpl; [| |discriminate].
    + destruct (insert (@tuple_lt W) x l) as [r'|] eqn:Hi; simpl;
        [|discriminate].
      intros [= <-]. constructor; [now apply IH|].
      apply tuple_lt_true in Ht. destruct Ht as [_ Hlt].
      assert (Hyx : name_le y x).
      { unfold name_le. unfold str_lt in Hlt. rewrite Hlt. discriminate. }
      rewrite Forall_forall in *. intros z Hz.
      apply (Permutation_in _ (insert_perm _ _ Hi)) in Hz.
      destruct Hz as [<-|Hz]; [exact Hyx|now apply Hall].
    + intros [= <-]. apply tuple_lt_false in Ht. destruct Ht as [Hxy _].
      constructor; [exact Hs|]. constructor; [exact Hxy|].
      rewrite Forall_forall in *. intros z Hz.
      exact (str_le_trans Hxy (Hall z Hz)).
Qed.

Lemma insert_Ok_agree x l r :
  StronglySorted name_le l ->
  (forall a b, In a l -> In b l -> fst a = fst b ->
               fn_id (snd a) = fn_id (snd b)) ->
  insert (@tuple_lt W) x l = Ok r ->
  forall y, In y l -> fst y = fst x -> fn_id (snd y) = fn_id (snd x).
Proof.
  revert r. induction l as [|y0 l IH]; simpl; intros r Hs Hc;
    [intros _ y []|].
  inversion Hs as [|? ? Hs' Hall]; subst.
  destruct (tuple_lt y0 x) as [[|]|] eqn:Ht; simpl; [| |discriminate].
  - destruct (insert (@tuple_lt W) x l) as [r'|] eqn:Hi; simpl;
      [|discriminate].
    intros _ y [<-|Hy] Hname.
    + apply tuple_lt_true in Ht. destruct Ht as [Hne _]. contradiction.
    + apply (IH r' Hs'); try assumption; [|reflexivity].
      intros a b Ha Hb. apply Hc; now right.
  - intros _ y Hy Hname. apply tuple_lt_false in Ht.
    destruct Ht as [Hxy Hid].
    destruct (list_eq_dec N.eq_dec (fst y0) (fst x)) as [E0|E0].
    + rewrite <- (Hid E0). apply Hc; [exact Hy|now left|congruence].
    + destruct Hy as [<-|Hy]; [contradiction|].
      exfalso. rewrite Forall_forall in Hall.
      assert (Hle : name_le y0 x).
      { unfold name_le. rewrite <- Hname. exact (Hall y Hy). }
      unfold name_le in Hxy, Hle.
      rewrite str_cmp_antisym in Hxy.
      destruct (str_cmp (fst y0) (fst x)) eqn:E; simpl in Hxy;
        [|now contradiction Hxy|now contradiction Hle].
      apply str_cmp_eq in E. contradiction.
Qed.

Lemma sorted_Ok l r :
  sorted (@tuple_lt W) l = Ok r ->
  StronglySorted name_le r
  /\ forall a b, In a l -> In b l -> fst a = fst b ->
                 fn_id (snd a) = fn_id (snd b).
Proof.
  revert r. induction l as [|x l IH]; simpl; intros r.
  - intros [= <-]. split; [constructor|intros a b []].
  - destruct (sorted (@tuple_lt W) l) as [s|] eqn:Hs; simpl;
      [|discriminate].
    intros Hi. destruct (IH s eq_refl) as [Hss Hc].
    pose proof (sorted_perm _ Hs) as Hperm.
    assert (Hc' : forall a b, In a s -> In b s -> fst a = fst b ->
                              fn_id (snd a) = fn_id (snd b)).
    { intros a b Ha Hb. apply Hc; now apply (Permutation_in _ Hperm). }
    pose proof (@insert_Ok_agree x s r Hss Hc' Hi) as Hx.
    split; [exact (@insert_Ok_sorted x s r Hss Hi)|].
    intros a b [<-|Ha] [<-|Hb] Hname.
    + reflexivity.
    + symmetry. apply Hx; [|now symmetry].
      now apply (Permutation_in _ (Permutation_sym Hperm)).
    + apply Hx; [|exact Hname].
      now apply (Permutation_in _ (Permutation_sym Hperm)).
    + now apply Hc.
Qed.

End SortedRaises.

(** Two handlers without parameters that share a name and are different
    objects make the sorted constructor raise. *)
Lemma sorted_constructor_raises_on_clash (W : Type)
    (handlers : list (pyfunction W)) :
  (exists f g,
     In f handlers /\ In g handlers
     /\ fn_parameters f = 0 /\ fn_parameters g = 0
     /\ fn_name f = fn_name g /\ fn_id f <> fn_id g) ->
  HandlerListDMenu_init handlers true = Err TypeError.
Proof.
  unfold HandlerListDMenu_init. fold (@tuple W). fold (@nullary W).
  intros [f [g [Hf [Hg [Hpf [Hpg [Hn Hid]]]]]]].
  destruct (sorted (@tuple_lt W)
              (map (@tuple W) (filter (@nullary W) handlers)))
    as [r|e'] eqn:Hs; simpl.
  - exfalso. apply sorted_Ok in Hs. destruct Hs as [_ Hc].
    apply Hid.
    apply (Hc (tuple f) (tuple g)); [| |exact Hn];
      apply in_map; apply filter_In; split; try assumption;
      now apply Nat.eqb_eq.
  - apply sorted_Err in Hs. now destruct Hs as [-> _].
Qed.


(** ** [HandlerListDMenu]: sorting and dispatch *)

Lemma get_None_not_key (V : Type) (k : pystr) (d : OrderedDict.t V) :
  OrderedDict.get k d = None -> ~ In k (OrderedDict.keys d).
Proof.
  intros Hget Hin. destruct (get_In_keys _ _ Hin) as [v Hv]. congruence.
Qed.

Lemma get_Some_key (V : Type) (k : pystr) (v : V) (d : OrderedDict.t V) :
  OrderedDict.get k d = Some v -> In k (OrderedDict.keys d).
Proof.
  intros Hget. apply get_In in Hget. unfold OrderedDict.keys.
  change k with (fst (k, v)). now apply in_map.
Qed.

(** X9. Sorting changes the order in which the options are offered and
    nothing else: whenever the sorted constructor returns, the unsorted one
    offers the same options, and every name is dispatched to the same
    function object by both. *)
Theorem HandlerListDMenu_sort_only_reorders (W : Type)
    (handlers : list (pyfunction W)) (s : HandlerListDMenu W) :
  HandlerListDMenu_init handlers true = Ok s ->
  exists u,
    HandlerListDMenu_init handlers false = Ok u
    /\ Permutation (create_options s) (create_options u)
    /\ forall name,
         option_map (@fn_id W) (OrderedDict.get name (option_handlers s))
         = option_map (@fn_id W) (OrderedDict.get name (option_handlers u)).
Proof.
  intros Hs.
  destruct (HandlerListDMenu_unsorted_last_wins handlers) as [u [Hu _]].
  exists u. split; [exact Hu|].
  assert (Hkeys : forall name,
             In (PyStr name) (create_options s)
             <-> In (PyStr name) (create_options u)).
  { intros name.
    rewrite (HandlerListDMenu_options _ _ name Hs).
    now rewrite (HandlerListDMenu_options _ _ name Hu). }
  split.
  - apply NoDup_Permutation.
    + simpl. apply NoDup_map_PyStr.
      exact (option_handlers_keys_NoDup _ _ Hs).
    + simpl. apply NoDup_map_PyStr.
      exact (option_handlers_keys_NoDup _ _ Hu).
    + intros o. simpl. split; intros Ho; apply in_map_iff in Ho;
        destruct Ho as [name [<- Hname]]; apply Hkeys;
        simpl; now apply in_map.
  - intros name.
    destruct (OrderedDict.get name (option_handlers s)) as [f|] eqn:Hf;
      destruct (OrderedDict.get name (option_handlers u)) as [g|] eqn:Hg;
      simpl; try reflexivity.
    + f_equal.
      apply get_In in Hf. apply get_In in Hg.
      destruct (option_handlers_entries _ _ _ _ Hs Hf) as [Hfn [Hfp Hfi]].
      destruct (option_handlers_entries _ _ _ _ Hu Hg) as [Hgn [Hgp Hgi]].
      destruct (Nat.eq_dec (fn_id f) (fn_id g)) as [E|E]; [exact E|].
      exfalso.
      assert (Herr : HandlerListDMenu_init handlers true = Err TypeError).
      { apply sorted_constructor_raises_on_clash.
        exists f, g. repeat split; try assumption. congruence. }
      congruence.
    + exfalso. apply get_Some_key in Hf. apply get_None_not_key in Hg.
      apply Hg. apply In_map_PyStr. apply Hkeys. simpl. now apply in_map.
    + exfalso. apply get_Some_key in Hg. apply get_None_not_key in Hf.
      apply Hf. apply In_map_PyStr. apply Hkeys. simpl. now apply in_map.
Qed.

Lemma HandlerListDMenu_sort_only_reorders_witness :
  exists u,
    HandlerListDMenu_init [fn0 1 "b"; fn0 2 "a"] false = Ok u
    /\ Permutation [PyStr (py "a"); PyStr (py "b")] (create_options u).
Proof.
  destruct (@HandlerListDMenu_sort_only_reorders (list nat)
              [fn0 1 "b"; fn0 2 "a"]
              {| option_handlers := [(py "a", fn0 2 "a");
                                     (py "b", fn0 1 "b")] |})
    as [u [Hu [Hperm _]]].
  - vm_compute. reflexivity.
  - exists u. split; [exact Hu|exact Hperm].
Defined.

(** The selector answers with a name of the mapping: [run] calls the
    handler stored under it. *)
Lemma run_dispatch (W : Type) (self : HandlerListDMenu W)
    (sel : selector) (args : list pystr) (path : pystr) (w : W)
    (name ws : pystr) (fn : pyfunction W) :
  OrderedDict.get name (option_handlers self) = Some fn ->
  name <> [] ->
  rstrip name = name ->
  whitespace ws ->
  decoded_output sel (create_options self) args path = Ok (name ++ ws) ->
  run self sel args path w = fn_call fn w.
Proof.
  intros Hget Hne Hstrip Hws Hout.
  unfold run. rewrite dmenu_decoded, Hout.
  cbn [bind]. rewrite (rstrip_app_whitespace name Hws), Hstrip.
  assert (Hin : contains name (create_options self) = true).
  { apply contains_In. simpl. apply in_map.
    exact (get_Some_key _ _ Hget). }
  rewrite Hin. cbn [bind].
  assert (Ht : truthy (PyStr name) = true)
    by (destruct name; [now contradiction Hne|reflexivity]).
  rewrite Ht. cbn [handle_option HandlerListDMenu_DMenu].
  rewrite Ht. cbn [getitem]. rewrite Hget. reflexivity.
Qed.

(** X10. Choosing a handler's name runs that handler: when [fn] is the only
    handler without parameters of its name and the selector answers with
    that name (followed by white space), [run] on the constructed menu,
    sorted or not, does to the world what calling [fn] does. *)
Theorem run_calls_chosen_handler (W : Type)
    (handlers : list (pyfunction W)) (sort : bool)
    (self : HandlerListDMenu W) (fn : pyfunction W) (sel : selector)
    (args : list pystr) (path : pystr) (w : W) (ws : pystr) :
  HandlerListDMenu_init handlers sort = Ok self ->
  In fn handlers ->
  fn_parameters fn = 0 ->
  (forall g, In g handlers -> fn_parameters g = 0 ->
             fn_name g = fn_name fn -> g = fn) ->
  fn_name fn <> [] ->
  rstrip (fn_name fn) = fn_name fn ->
  whitespace ws ->
  decoded_output sel (create_options self) args path
  = Ok (fn_name fn ++ ws) ->
  run self sel args path w = fn_call fn w.
Proof.
  intros Hinit Hin Hp Huniq Hne Hstrip Hws Hout.
  assert (Hkey : In (fn_name fn) (OrderedDict.keys (option_handlers self))).
  { apply In_map_PyStr.
    apply (HandlerListDMenu_options _ _ (fn_name fn) Hinit).
    now exists fn. }
  destruct (get_In_keys _ _ Hkey) as [g Hg].
  assert (g = fn) as ->.
  { destruct (option_handlers_entries _ _ _ _ Hinit (get_In _ _ Hg))
      as [Hgn [Hgp Hgi]].
    now apply Huniq. }
  exact (run_dispatch self sel args path w Hg Hne Hstrip Hws Hout).
Qed.

Lemma run_calls_chosen_handler_witness :
  run {| option_handlers := [(py "halt", fn0 2 "halt");
                             (py "lock", fn0 1 "lock")] |}
      (pick 1) [] DEFAULT_DMENU_PATH []
  = Ok [1].
Proof.
  apply (@run_calls_chosen_handler (list nat)
           [fn0 1 "lock"; fn1 3 "echo"; fn0 2 "halt"] true
           {| option_handlers := [(py "halt", fn0 2 "halt");
                                  (py "lock", fn0 1 "lock")] |}
           (fn0 1 "lock") (pick 1) [] DEFAULT_DMENU_PATH [] NL).
  - vm_compute. reflexivity.
  - now left.
  - reflexivity.
  - intros g [<-|[<-|[<-|[]]]] Hp Hn; try reflexivity; discriminate.
  - discriminate.
  - vm_compute. reflexivity.
  - repeat constructor.
  - vm_compute. reflexivity.
Defined.

(** X11. With [sort=False] a name shared by several handlers is dispatched
    to the last of them that takes no parameters: [run] does to the world
    what calling that one does. *)
Theorem run_unsorted_calls_last_handler (W : Type)
    (handlers : list (pyfunction W)) (self : HandlerListDMenu W)
    (fn : pyfunction W) (sel : selector) (args : list pystr)
    (path : pystr) (w : W) (name ws : pystr) :
  HandlerListDMenu_init handlers false = Ok self ->
  find (fun fn => str_eqb name (fn_name fn))
       (rev (filter (@nullary W) handlers)) = Some fn ->
  name <> [] ->
  rstrip name = name ->
  whitespace ws ->
  decoded_output sel (create_options self) args path = Ok (name ++ ws) ->
  run self sel args path w = fn_call fn w.
Proof.
  intros Hinit Hlast Hne Hstrip Hws Hout.
  destruct (HandlerListDMenu_unsorted_last_wins handlers)
    as [self' [Hinit' Hget]].
  rewrite Hinit in Hinit'. injection Hinit' as <-.
  apply (run_dispatch self sel args path w (name := name) (ws := ws));
    try assumption.
  now rewrite Hget.
Qed.

Lemma run_unsorted_calls_last_handler_witness :
  run {| option_handlers := [(py "go", fn0 3 "go")] |}
      (pick 0) [] DEFAULT_DMENU_PATH []
  = Ok [3].
Proof.
  apply (@run_unsorted_calls_last_handler (list nat)
           [fn0 1 "go"; fn0 3 "go"; fn1 4 "go"]
           {| option_handlers := [(py "go", fn0 3 "go")] |}
           (fn0 3 "go") (pick 0) [] DEFAULT_DMENU_PATH [] (py "go") NL).
  - vm_compute. reflexivity.
  - vm_compute. reflexivity.
  - discriminate.
  - vm_compute. reflexivity.
  - repeat constructor.
  - vm_compute. reflexivity.
Defined.

(** ** [HandlerDMenu]: the order of the options *)

Lemma str_lt_irrefl (a : pystr) : ~ str_lt a a.
Proof.
  unfold str_lt. now rewrite (proj2 (str_cmp_eq a a) eq_refl).
Qed.

Lemma StronglySorted_str_lt_NoDup (l : list pystr) :
  StronglySorted str_lt l -> NoDup l.
Proof.
  induction 1 as [|a l _ IH Hall]; constructor; [|exact IH].
  intros Hin. rewrite Forall_forall in Hall.
  exact (str_lt_irrefl (Hall a Hin)).
Qed.

Lemma filter_keeps_distinct_names (A : Type) (keep : pystr * A -> bool)
    (object : list (pystr * A)) :
  NoDup (map fst object) -> NoDup (map fst (filter keep object)).
Proof.
  intros Hnd. induction object as [|m object IH]; simpl in *;
    [constructor|].
  apply NoDup_cons_iff in Hnd. destruct Hnd as [Hm Hrest].
  destruct (keep m); simpl; [|now apply IH].
  apply NoDup_cons_iff. split; [|now apply IH].
  intros Hin. apply Hm. apply in_map_iff in Hin.
  destruct Hin as [m' [Heq Hin]]. apply filter_In in Hin.
  rewrite <- Heq. apply in_map. tauto.
Qed.

Section MemberOrder.
Variable W : Type.
Implicit Types (members : list (pystr * attr W)).

Lemma kept_names_sorted members :
  StronglySorted name_lt members ->
  (forall a fn, In (a, AttrFunction fn) members -> fn_name fn = a) ->
  StronglySorted str_lt
    (map fst (map (@tuple W)
                  (filter (@nullary W) (flat_map (@kept W) members))))
  /\ forall n,
       In n (map fst (map (@tuple W)
                          (filter (@nullary W)
                                  (flat_map (@kept W) members)))) ->
       In n (map fst members).
Proof.
  induction 1 as [|m members Hs IH Hall]; intros Hagree; simpl.
  - split; [constructor|intros n []].
  - destruct IH as [IHs IHin].
    { intros a fn Hin. apply Hagree. now right. }
    rewrite filter_app, !map_app.
    destruct m as [a [fn|]]; unfold kept at 1 3; simpl;
      [|split; [exact IHs|intros n Hn; right; now apply IHin]].
    destruct (startswith a (py "__")); simpl;
      [split; [exact IHs|intros n Hn; right; now apply IHin]|].
    unfold nullary at 1 3. destruct (Nat.eqb (fn_parameters fn) 0); simpl;
      [|split; [exact IHs|intros n Hn; right; now apply IHin]].
    assert (Hname : fn_name fn = a) by (apply Hagree; now left).
    rewrite Hname. split.
    + constructor; [exact IHs|].
      rewrite Forall_forall in *. intros n Hn.
      apply IHin in Hn. apply in_map_iff in Hn.
      destruct Hn as [m' [<- Hm']]. exact (Hall m' Hm').
    + intros n [<-|Hn]; [now left|right; now apply IHin].
Qed.

End MemberOrder.

(** X12. The docstring's "sorted by name": when the attribute names of the
    target are distinct and every function is stored under its own
    [__name__], [HandlerDMenu] returns and offers its options in strictly
    increasing lexicographic order, none of them beginning with two
    underscores. *)
Theorem HandlerDMenu_options_sorted (W : Type) (object : pyobject W) :
  NoDup (map fst object) ->
  (forall a fn, In (a, AttrFunction fn) object -> fn_name fn = a) ->
  exists self names,
    HandlerDMenu_init object = Ok self
    /\ create_options self = map PyStr names
    /\ StronglySorted str_lt names
    /\ forall name, In name names -> startswith name (py "__") = false.
Proof.
  intros Hnd Hagree.
  set (members := getmembers object (@isfunction W)).
  assert (Hsorted : StronglySorted name_lt members).
  { apply Sorted_StronglySorted.
    - intros x y z. apply str_lt_trans.
    - apply sort_by_name_sorted.
      now apply filter_keeps_distinct_names. }
  assert (Hagree' : forall a fn,
             In (a, AttrFunction fn) members -> fn_name fn = a).
  { intros a fn Hin. apply Hagree.
    now apply (In_getmembers object (a, AttrFunction fn)) in Hin. }
  destruct (kept_names_sorted Hsorted Hagree') as [Hs _].
  set (handler_list :=
         map (@tuple W) (filter (@nullary W) (flat_map (@kept W) members)))
    in *.
  assert (Hinit : HandlerDMenu_init object
                  = Ok {| option_handlers := handler_list |}).
  { transitivity (Ok {| option_handlers :=
                          OrderedDict.of_list handler_list |});
      [reflexivity|].
    rewrite (of_list_distinct handler_list); [reflexivity|].
    now apply StronglySorted_str_lt_NoDup. }
  exists {| option_handlers := handler_list |}, (map fst handler_list).
  split; [exact Hinit|]. split; [reflexivity|]. split; [exact Hs|].
  intros name Hin.
  apply (@HandlerDMenu_no_dunder_when_names_agree W object _ name Hagree
           Hinit).
  simpl. now apply in_map.
Qed.

Lemma HandlerDMenu_options_sorted_witness :
  exists self names,
    HandlerDMenu_init
      [(py "quit", AttrFunction (fn0 1 "quit"));
       (py "__init__", AttrFunction (fn0 2 "__init__"));
       (py "version", @AttrOther (list nat));
       (py "open", AttrFunction (fn0 3 "open"))] = Ok self
    /\ create_options self = map PyStr names
    /\ StronglySorted str_lt names
    /\ forall name, In name names -> startswith name (py "__") = false.
Proof.
  apply (@HandlerDMenu_options_sorted (list nat)).
  - vm_compute. repeat constructor; simpl; intuition discriminate.
  - intros a fn [H|[H|[H|[H|[]]]]]; inversion H; reflexivity.
Defined.

(** ** [HandlerDMenu]: what [run] can call *)



(** ** [dmenu]: one line per option *)

Section Lines.
Local Open Scope N_scope.

Ltac divlia := zify; Z.to_euclidean_division_equations; lia.

Lemma split_lines_nonempty (bs : list byte) : split_lines bs <> [].
Proof.
  destruct bs as [|b bs]; simpl; [discriminate|].
  destruct (split_lines bs); [discriminate|].
  destruct (Byte.eqb b x0a); discriminate.
Qed.

Lemma split_lines_line (bs : list byte) :
  ~ In x0a bs -> split_lines bs = [bs].
Proof.
  induction bs as [|b bs IH]; simpl; intros Hnl; [reflexivity|].
  rewrite IH by tauto.
  destruct (Byte.eqb b x0a) eqn:E; [|reflexivity].
  apply Byte.byte_dec_bl in E. subst b. tauto.
Qed.

Lemma split_lines_app (bs rest : list byte) :
  ~ In x0a bs ->
  split_lines (bs ++ x0a :: rest) = bs :: split_lines rest.
Proof.
  induction bs as [|b bs IH]; simpl; intros Hnl.
  - destruct (split_lines rest) eqn:E; [|reflexivity].
    now apply split_lines_nonempty in E.
  - rewrite IH by tauto.
    destruct (Byte.eqb b x0a) eqn:E; [|reflexivity].
    apply Byte.byte_dec_bl in E. subst b. tauto.
Qed.

Lemma byte_of_not_newline (n : N) : n < 256 -> n <> 10 -> byte_of n <> x0a.
Proof.
  intros Hn Hne Hb. apply Hne.
  rewrite <- (to_N_byte_of Hn), Hb. reflexivity.
Qed.

Lemma encode_cp_no_newline (c : N) (bs : list byte) :
  encode_cp c = Some bs -> c <> 10 -> ~ In x0a bs.
Proof.
  unfold encode_cp, cont_byte.
  destruct (N.ltb_spec c 128);
    [|destruct (N.ltb_spec c 2048);
      [|destruct (N.ltb_spec c 65536);
        [destruct ((55296 <=? c) && (c <=? 57343)); [discriminate|]
        |destruct (N.ltb_spec c 1114112); [|discriminate]]]];
    intros Hbs Hne Hin;
    apply (f_equal (fun o => match o with Some x => x | None => [] end))
      in Hbs;
    cbv beta iota in Hbs; subst bs; cbn [In] in Hin;
    repeat (destruct Hin as [Hin|Hin];
            [revert Hin; apply byte_of_not_newline; divlia|]);
    exact Hin.
Qed.

Lemma encode_no_newline (s : pystr) (bs : list byte) :
  encode s = Some bs -> ~ In 10 s -> ~ In x0a bs.
Proof.
  revert bs. induction s as [|c s IH]; simpl; intros bs.
  - intros [= <-] _ [].
  - destruct (encode_cp c) as [b|] eqn:Hc; [|discriminate].
    destruct (encode s) as [rest|]; [|discriminate].
    intros [= <-] Hnl Hin. apply in_app_or in Hin.
    destruct Hin as [Hin|Hin].
    + apply (@encode_cp_no_newline c b Hc); [|exact Hin].
      intros ->. apply Hnl. now left.
    + apply (IH rest eq_refl); [|exact Hin].
      intros H. apply Hnl. now right.
Qed.

(** What the selector reads, cut at the newline bytes, is the encoding of
    each option's text, in order. *)
Lemma split_lines_option_lines (texts : list pystr) (input : list byte) :
  texts <> [] ->
  Forall (fun t => ~ In 10 t) texts ->
  encode (join NL texts) = Some input ->
  map Some (split_lines input) = map encode texts.
Proof.
  intros Hne Hall. revert input.
  induction Hall as [|t texts Ht Hall IH]; [now contradiction Hne|].
  intros input. destruct texts as [|t' texts].
  - simpl. intros Henc. rewrite Henc.
    now rewrite (split_lines_line input
                   (@encode_no_newline t input Henc Ht)).
  - change (join NL (t :: t' :: texts))
      with (t ++ NL ++ join NL (t' :: texts))%list.
    rewrite encode_app.
    destruct (encode t) as [b1|] eqn:E1; [|discriminate].
    change (NL ++ join NL (t' :: texts))%list
      with (10 :: join NL (t' :: texts)).
    change (encode (10 :: join NL (t' :: texts)))
      with (match encode (join NL (t' :: texts)) with
            | Some rest => Some ([x0a] ++ rest)%list
            | None => None
            end).
    destruct (encode (join NL (t' :: texts))) as [b3|] eqn:E3;
      [|discriminate].
    intros [= <-]. simpl app.
    rewrite (split_lines_app b1 b3 (@encode_no_newline t b1 E1 Ht)).
    change (map encode (t :: t' :: texts))
      with (encode t :: map encode (t' :: texts)).
    rewrite E1. simpl map at 1. f_equal.
    apply IH; [discriminate|reflexivity].
Qed.

End Lines.

(** X14. Each option is one line of the menu: when no option's text holds
    a newline, what the selector reads, cut at the newline bytes and
    decoded, is exactly the texts of the options, one per line and in the
    order given. *)
Theorem selector_reads_one_line_per_option (options : list pyval)
    (input : list byte) :
  options <> [] ->
  Forall (fun o => ~ In 10%N (str o)) options ->
  encode (join NL (map str options)) = Some input ->
  map decode (split_lines input) = map (fun o => Some (str o)) options.
Proof.
  intros Hne Hall Henc.
  assert (H : map Some (split_lines input) = map encode (map str options)).
  { apply split_lines_option_lines; [|now apply Forall_map|exact Henc].
    destruct options; [now contradiction Hne|discriminate]. }
  assert (Hdec : forall l : list (list byte),
             map decode l
             = map (fun o => match o with
                             | Some bs => decode bs
                             | None => None
                             end) (map Some l)).
  { intros l. rewrite map_map. reflexivity. }
  rewrite Hdec, H, !map_map. apply map_ext_in. intros o Ho.
  destruct (encode (str o)) as [bs|] eqn:E.
  - exact (decode_encode _ E).
  - exfalso.
    assert (Hs : exists bs, encode (join NL (map str options)) = Some bs)
      by eauto.
    apply encode_Some_iff, Forall_join_inv in Hs.
    rewrite Forall_forall in Hs.
    specialize (Hs (str o) (in_map str _ _ Ho)).
    apply encode_Some_iff in Hs. destruct Hs as [bs Hbs]. congruence.
Qed.

Lemma selector_reads_one_line_per_option_witness :
  map decode (split_lines [x61; x0a; x31; x32; x0a; x54; x72; x75; x65])
  = [Some (py "a"); Some (py "12"); Some (py "True")].
Proof.
  apply (@selector_reads_one_line_per_option
           [PyStr (py "a"); PyInt 12; PyBool true]
           [x61; x0a; x31; x32; x0a; x54; x72; x75; x65]).
  - discriminate.
  - repeat constructor; vm_compute; intuition discriminate.
  - vm_compute. reflexivity.
Defined.

(** X15. The round trip through a real selection: when the options are
    texts without newline and without trailing white space, and the user
    picks the [n]-th line of the menu, [dmenu] returns the [n]-th option. *)
Theorem dmenu_pick_returns_option (texts : list pystr) (n : nat)
    (args : list pystr) (path : pystr) :
  n < List.length texts ->
  Forall (fun t => Forall (fun c => encodable c = true) t) texts ->
  Forall (fun t => ~ In 10%N t) texts ->
  Forall (fun t => rstrip t = t) texts ->
  dmenu (pick n) (map PyStr texts) args path = Ok (PyStr (nth n texts [])).
Proof.
  intros Hn Henc Hnl Hstrip.
  set (t := nth n texts []).
  assert (Hin : In t texts) by now apply nth_In.
  assert (Hne : texts <> []) by (destruct texts; [inversion Hn|discriminate]).
  assert (Hstr : map str (map PyStr texts) = texts)
    by (rewrite map_map; apply map_id).
  assert (Hjoin : exists input, encode (join NL texts) = Some input).
  { apply encode_Some_iff. apply Forall_join; [repeat constructor|].
    exact Henc. }
  destruct Hjoin as [input Hinput].
  pose proof (split_lines_option_lines Hne Hnl Hinput) as Hlines.
  assert (Hline : Some (nth n (split_lines input) []) = encode t).
  { rewrite <- (map_nth Some), Hlines.
    change (Some []) with (encode []). now rewrite map_nth. }
  assert (Hout : decoded_output (pick n) (map PyStr texts) args path
                 = Ok (t ++ NL)).
  { unfold decoded_output, pick. cbn [of_option bind].
    rewrite Hstr, Hinput. cbn [of_option bind].
    assert (He : encode (t ++ NL)
                 = Some (nth n (split_lines input) [] ++ [x0a])).
    { rewrite encode_app, <- Hline. reflexivity. }
    now rewrite (decode_encode _ He). }
  rewrite dmenu_decoded, Hout. cbn [bind].
  assert (Hws : whitespace NL) by (repeat constructor).
  rewrite (rstrip_app_whitespace t Hws).
  rewrite Forall_forall in Hstrip. rewrite (Hstrip t Hin).
  assert (Hc : contains t (map PyStr texts) = true)
    by (apply contains_In; now apply in_map).
  now rewrite Hc.
Qed.

Lemma dmenu_pick_returns_option_witness :
  dmenu (pick 2) (map PyStr [py "lock"; py "log out"; py "halt"]) []
        DEFAULT_DMENU_PATH
  = Ok (PyStr (py "halt")).
Proof.
  apply (@dmenu_pick_returns_option [py "lock"; py "log out"; py "halt"] 2
           [] DEFAULT_DMENU_PATH).
  - simpl. lia.
  - repeat constructor.
  - repeat constructor; vm_compute; intuition discriminate.
  - repeat constructor.
Defined.

(** ** Options that are not text *)


